(** * informe-ventas: the sales report of [analisis.py]

    A shallow embedding of [analisis.py] and the properties of its loader
    ([cargar_csv]), its aggregator ([calcular_metricas]) and its entry point
    ([main]).

    Conventions of the model.
    - An [int64] is a [Z].  The cast [astype(int)] of the loader yields a
      value between [int64_min] and [int64_max]; the sums of quantities are
      not wrapped.
    - A [float64] is an exact rational ([Qc]) or the marker NaN ([None]), and
      the arithmetic of the model is exact.  The program computes in
      binary64: the two agree where no operation rounds, and the properties
      that depend on the value of a product or of a sum of revenues are
      stated for such tables ([producto_exacto], [sumas_exactas]).  The
      revenue column and its sums are also given in binary64 (on
      [spec_float]), where a table with decimal prices shows the rounding.
    - Prices are finite or NaN: a price cell that reads as an infinity is
      outside the model.  A quantity cell may read as an infinity
      ([Infinita]), which [astype(int)] refuses.
    - A DataFrame is an object in a store, named by a reference: [df.copy()]
      allocates, [df["col"] = ...] updates the object in place.
    - Python exceptions are values of [excepcion]; a computation is a function
      from the state to a [resultado] and the next state.
    - The text of the charts and of the report is not modelled, only which
      files the run creates.
    - The date column holds calendar dates (the input contract of the
      program: unparseable or missing dates are outside the model).  A product
      cell may be missing (pandas reads an empty cell as NaN).
    - Two columns with the same normalised name make [df["cantidad"]] a
      frame instead of a series; the properties of an accepted file assume
      that the normalised names are distinct.  Columns other than the four
      required ones are not modelled (a column ["ingreso"] of the file would
      be overwritten by [calcular_metricas]).
    - [sort_values] keeps equal values in their order of arrival; pandas
      leaves that order to the sort kernel, and no property below depends
      on it. *)

From Stdlib Require Import ZArith QArith Qcanon String Ascii Lia SpecFloat.
From stdpp Require Import base option list gmap strings sorting.

Local Open Scope Z_scope.

(** ** Exceptions and results *)

Inductive excepcion :=
| SystemExit (codigo : Z)      (* raised by [sys.exit] *)
| ParserError                  (* [pd.read_csv] cannot parse the file *)
| ValueError
| KeyError
| IntCastingNaNError.          (* [astype(int)] on NaN or an infinity *)

Inductive resultado (A : Type) :=
| Retorna (a : A)
| Lanza (e : excepcion).
Arguments Retorna {A} a.
Arguments Lanza {A} e.

Definition res_bind {A B} (r : resultado A) (k : A -> resultado B) : resultado B :=
  match r with
  | Retorna a => k a
  | Lanza e => Lanza e
  end.

Fixpoint res_mapM {A B} (f : A -> resultado B) (l : list A) : resultado (list B) :=
  match l with
  | [] => Retorna []
  | x :: l' =>
      res_bind (f x) (fun y =>
      res_bind (res_mapM f l') (fun ys => Retorna (y :: ys)))
  end.

(** ** Numbers *)

(** [float64]: an exact rational, or NaN. *)
Definition float64 := option Qc.
Definition NaN : float64 := None.

Definition Qc_leb (x y : Qc) : bool := Qle_bool x y.

(** [int64 * float64], as in [df["cantidad"] * df["precio"]]: the integer is
    converted and multiplied; NaN gives NaN. *)
Definition mul_int_float (c : Z) (p : float64) : float64 :=
  match p with
  | Some q => Some (Qc_of_Z c * q)%Qc
  | None => NaN
  end.

(** [Series.sum()] and the group sums: NaN entries are skipped
    ([skipna=True], [min_count=0]), the empty sum is 0. *)
Fixpoint suma_float (l : list float64) : Qc :=
  match l with
  | [] => 0%Qc
  | Some q :: l' => (q + suma_float l')%Qc
  | None :: l' => suma_float l'
  end.

Definition sum_skipna (l : list float64) : float64 := Some (suma_float l).

Fixpoint suma_int (l : list Z) : Z :=
  match l with
  | [] => 0
  | z :: l' => z + suma_int l'
  end.

(** ** Cells of the file and their coercion *)

(** A cell of a numeric column as [pd.to_numeric] sees it: text that reads as
    a finite number (the value [q] is the number read), any other text, or
    nothing.  A column of booleans, which pandas reads as numbers, is
    outside the model. *)
Inductive celda :=
| Numero (q : Qc)
| Texto (s : string)
| Vacia.

(** A cell of the quantity column may also read as an infinity (["inf"],
    ["-inf"], ["Infinity"]). *)
Inductive celda_cantidad :=
| Finita (c : celda)
| Infinita (negativa : bool).

(** The quantity column between [to_numeric] and [astype]: a [float64] that
    may be an infinity. *)
Inductive float64_inf :=
| Finito (x : float64)
| Infinito (negativo : bool).

(** [pd.to_numeric(col, errors="coerce")], cell by cell. *)
Definition to_numeric (c : celda) : float64 :=
  match c with
  | Numero q => Some q
  | Texto _ => NaN
  | Vacia => NaN
  end.

(** [.fillna(0)] *)
Definition fillna0 (x : float64) : float64 :=
  match x with
  | Some q => Some q
  | None => Some 0%Qc
  end.

Definition to_numeric_cantidad (c : celda_cantidad) : float64_inf :=
  match c with
  | Finita c' => Finito (to_numeric c')
  | Infinita b => Infinito b
  end.

(** [.fillna(0)] leaves an infinity as it is. *)
Definition fillna0_inf (x : float64_inf) : float64_inf :=
  match x with
  | Finito x' => Finito (fillna0 x')
  | Infinito b => Infinito b
  end.

Definition int64_min : Z := - 2 ^ 63.
Definition int64_max : Z := 2 ^ 63 - 1.

(** [.astype(int)] on a float column: NaN and the infinities cannot be cast
    ([IntCastingNaNError]); a finite value is truncated toward zero.  A value
    whose integer part is outside int64 is cast without an error to a
    meaningless integer, [int64_min] on x86-64. *)
Definition astype_int (x : float64_inf) : resultado Z :=
  match x with
  | Finito (Some q) =>
      let z := Z.quot (Qnum q) (Zpos (Qden q)) in
      Retorna (if (int64_min <=? z) && (z <=? int64_max) then z else int64_min)
  | Finito None => Lanza IntCastingNaNError
  | Infinito _ => Lanza IntCastingNaNError
  end.

(** ** Dates and months *)

Record Fecha := { anio : Z; mes : Z; dia : Z }.

(** A calendar month, (year, month). *)
Definition Mes : Type := Z * Z.

Definition mes_de (f : Fecha) : Mes := (anio f, mes f).

(** Months counted from year 0: the chronological order of months. *)
Definition ord_mes (m : Mes) : Z := 12 * fst m + (snd m - 1).
Definition mes_de_ord (k : Z) : Mes := (k / 12, k mod 12 + 1).

(** ** Tables *)

(** A row of the loaded table. *)
Record Fila := {
  fecha : Fecha;
  producto : option string;    (* [None]: missing label (NaN) *)
  cantidad : Z;
  precio : float64
}.

(** A DataFrame object: the four required columns row by row, in file order,
    and the column ["ingreso"] when the frame has one. *)
Record DataFrame := {
  filas : list Fila;
  col_ingreso : option (list float64)
}.

(** A row of the file, before coercion. *)
Record FilaCruda := {
  cr_fecha : Fecha;
  cr_producto : option string;
  cr_cantidad : celda_cantidad;
  cr_precio : celda
}.

(** The file at [csv_path]: absent, not readable as delimited text, or a
    header and rows.  Each row carries the cells under the four required
    columns; they are read only when the header check has passed. *)
Inductive contenido :=
| Ilegible
| Tabular (encabezados : list string) (crudas : list FilaCruda).

Inductive archivo :=
| NoExiste
| Existe (c : contenido).

(** ** State: the objects of the run and the files it has written *)

Definition ref := nat.

Record Estado := {
  objetos : gmap ref DataFrame;
  escritos : list string
}.

Definition estado_inicial : Estado := {| objetos := ∅; escritos := [] |}.

Definition M (A : Type) : Type := Estado -> resultado A * Estado.

Definition retornar {A} (a : A) : M A := fun s => (Retorna a, s).
Definition lanzar {A} (e : excepcion) : M A := fun s => (Lanza e, s).
Definition ligar {A B} (c : M A) (k : A -> M B) : M B :=
  fun s =>
    match c s with
    | (Retorna a, s') => k a s'
    | (Lanza e, s') => (Lanza e, s')
    end.
Definition elevar {A} (r : resultado A) : M A := fun s => (r, s).

#[global] Instance M_ret : MRet M := @retornar.
#[global] Instance M_bind : MBind M := fun A B k c => ligar c k.

(** A new object, at a reference no object of the store has. *)
Definition nuevo (d : DataFrame) : M ref :=
  fun s =>
    let r := fresh (dom (objetos s)) in
    (Retorna r, {| objetos := <[r := d]> (objetos s); escritos := escritos s |}).

Definition leer (r : ref) : M DataFrame :=
  fun s =>
    match objetos s !! r with
    | Some d => (Retorna d, s)
    | None => (Lanza KeyError, s)
    end.

(** In-place update of the object at [r]. *)
Definition modificar (r : ref) (f : DataFrame -> DataFrame) : M unit :=
  fun s =>
    match objetos s !! r with
    | Some d => (Retorna tt, {| objetos := <[r := f d]> (objetos s); escritos := escritos s |})
    | None => (Lanza KeyError, s)
    end.

(** [savefig(outfile)] and [open(outfile, "w")]: the file is written. *)
Definition escribir_archivo (outfile : string) : M unit :=
  fun s => (Retorna tt, {| objetos := objetos s; escritos := escritos s ++ [outfile] |}).

(** ** The loader *)

(** Header names are modelled over ASCII: a byte above 127 is kept as it is
    (an accented letter is a word character). *)
Definition es_espacio (a : ascii) : bool :=
  let n := nat_of_ascii a in
  ((9 <=? n) && (n <=? 13) || (28 <=? n) && (n <=? 32))%nat.

Definition minuscula (a : ascii) : ascii :=
  let n := nat_of_ascii a in
  if ((65 <=? n) && (n <=? 90))%nat then ascii_of_nat (n + 32) else a.

Definition es_palabra (a : ascii) : bool :=
  let n := nat_of_ascii a in
  ((48 <=? n) && (n <=? 57) || (65 <=? n) && (n <=? 90) || (n =? 95)
   || (97 <=? n) && (n <=? 122) || (128 <=? n))%nat.

Fixpoint lstrip (l : list ascii) : list ascii :=
  match l with
  | a :: l' => if es_espacio a then lstrip l' else l
  | [] => []
  end.

Definition strip (l : list ascii) : list ascii :=
  rev (lstrip (rev (lstrip l))).

(** The normalisation of a column name: [strip], [lower], every space
    replaced by an underscore, then every character outside [\w] and the
    underscore removed. *)
Definition normalizar (s : string) : string :=
  string_of_list_ascii
    (List.filter es_palabra
       (fmap (fun a => if Ascii.eqb a " " then "_"%char else a)
          (fmap minuscula (strip (list_ascii_of_string s))))).

Definition requeridas : list string := ["fecha"; "producto"; "cantidad"; "precio"]%string.

Definition contiene (cols : list string) (c : string) : bool :=
  existsb (String.eqb c) cols.

(** [requeridas - set(df.columns)] *)
Definition faltantes (cols : list string) : list string :=
  List.filter (fun r => negb (contiene cols r)) requeridas.

(** [pd.read_csv(csv_path, parse_dates=["fecha"])]: fails on a file that is
    not delimited text, and when no column is named ["fecha"] as written. *)
Definition read_csv (c : contenido) : resultado (list string * list FilaCruda) :=
  match c with
  | Ilegible => Lanza ParserError
  | Tabular enc crudas =>
      if contiene enc "fecha" then Retorna (enc, crudas) else Lanza ValueError
  end.

Definition armar_fila (c : FilaCruda) (qp : Z * float64) : Fila :=
  {| fecha := cr_fecha c; producto := cr_producto c;
     cantidad := fst qp; precio := snd qp |}.

(** [pd.to_numeric(df["cantidad"], errors="coerce").fillna(0).astype(int)] *)
Definition coercer_cantidad (cs : list celda_cantidad) : resultado (list Z) :=
  res_mapM astype_int (fmap fillna0_inf (fmap to_numeric_cantidad cs)).

(** The two coercions are outside the [try] of the loader: an exception of
    [astype(int)] is not turned into [sys.exit(1)]. *)
Definition cargar_csv (csv_path : archivo) : M ref :=
  match csv_path with
  | NoExiste => lanzar (SystemExit 1)
  | Existe c =>
      match read_csv c with
      | Lanza _ => lanzar (SystemExit 1)
      | Retorna (enc, crudas) =>
          let columnas := fmap normalizar enc in
          match faltantes columnas with
          | _ :: _ => lanzar (SystemExit 1)
          | [] =>
              cant ← elevar (coercer_cantidad (fmap cr_cantidad crudas));
              let prec := fmap to_numeric (fmap cr_precio crudas) in
              nuevo {| filas := zip_with armar_fila crudas (zip cant prec);
                       col_ingreso := None |}
          end
      end
  end.

(** ** Series operations of the aggregator *)

(** A stable insertion sort: [x] goes before the first [y] with [leb x y]. *)
Section Ordenar.
Context {A : Type} (leb : A -> A -> bool).

Fixpoint insertar (x : A) (l : list A) : list A :=
  match l with
  | [] => [x]
  | y :: l' => if leb x y then x :: l else y :: insertar x l'
  end.

Fixpoint ordenar (l : list A) : list A :=
  match l with
  | [] => []
  | x :: l' => insertar x (ordenar l')
  end.
End Ordenar.

(** [.resample("ME")[col].sum()] over the index [fechas]: one bin per
    calendar month from the earliest to the latest date, in chronological
    order; a bin sums the values of its month and an empty bin sums to 0. *)
Definition ord_fecha (f : Fecha) : Z := ord_mes (mes_de f).

Definition resample_ME_sum (fechas : list Fecha) (vals : list float64)
  : list (Mes * float64) :=
  match fmap ord_fecha fechas with
  | [] => []
  | o :: os =>
      let primero := foldr Z.min o os in
      let ultimo := foldr Z.max o os in
      fmap (fun k =>
             (mes_de_ord k,
              sum_skipna
                (fmap snd (filter (fun fv => ord_fecha (fst fv) = k) (zip fechas vals)))))
          (seqZ primero (ultimo - primero + 1))
  end.

(** The group keys of [.groupby(col)]: the distinct labels, in ascending
    order; rows with a missing label belong to no group ([dropna=True]). *)
Definition claves_grupo (etiquetas : list (option string)) : list string :=
  ordenar String.leb (remove_dups (omap id etiquetas)).

Definition valores_grupo {V} (etiquetas : list (option string)) (vals : list V)
    (p : string) : list V :=
  fmap snd (filter (fun ev => fst ev = Some p) (zip etiquetas vals)).

(** [.groupby("producto")["cantidad"].sum()] *)
Definition groupby_sum_int (etiquetas : list (option string)) (vals : list Z)
  : list (string * Z) :=
  fmap (fun p => (p, suma_int (valores_grupo etiquetas vals p)))
      (claves_grupo etiquetas).

(** [.groupby("producto")["ingreso"].sum()] *)
Definition groupby_sum_float (etiquetas : list (option string)) (vals : list float64)
  : list (string * float64) :=
  fmap (fun p => (p, sum_skipna (valores_grupo etiquetas vals p)))
      (claves_grupo etiquetas).

(** [.sort_values(ascending=False)]: largest first, equal values in their
    order of arrival (pandas leaves the order of ties to the sort kernel);
    on floats the NaN entries go last. *)
Definition desc_int (a b : string * Z) : bool := snd b <=? snd a.

Definition sort_values_desc_int (s : list (string * Z)) : list (string * Z) :=
  ordenar desc_int s.

Definition desc_float (a b : string * float64) : bool :=
  match snd a, snd b with
  | Some x, Some y => Qc_leb y x
  | _, _ => true
  end.

Definition sort_values_desc_float (s : list (string * float64))
  : list (string * float64) :=
  ordenar desc_float (filter (fun e => snd e <> NaN) s)
  ++ filter (fun e => snd e = NaN) s.

(** [.idxmax()] and [.max()] on an integer series: the first entry that
    holds the largest value.  On an empty series [idxmax] raises and [max]
    is NaN. *)
Fixpoint mayor_int (mejor : string * Z) (l : list (string * Z)) : string * Z :=
  match l with
  | [] => mejor
  | e :: l' => mayor_int (if snd mejor <? snd e then e else mejor) l'
  end.

Definition idxmax_int (s : list (string * Z)) : resultado string :=
  match s with
  | [] => Lanza ValueError
  | e :: l => Retorna (fst (mayor_int e l))
  end.

Definition max_int (s : list (string * Z)) : option Z :=
  match s with
  | [] => None
  | e :: l => Some (snd (mayor_int e l))
  end.

(** [int(x)]: NaN cannot be converted. *)
Definition int_de (x : option Z) : resultado Z :=
  match x with
  | Some z => Retorna z
  | None => Lanza ValueError
  end.

(** On a float series NaN entries are skipped ([skipna=True]); with no
    entry left [idxmax] raises and [max] is NaN. *)
Fixpoint mayor_float (mejor : string * Qc) (l : list (string * float64)) : string * Qc :=
  match l with
  | [] => mejor
  | (p, Some x) :: l' =>
      mayor_float (if Qc_leb x (snd mejor) then mejor else (p, x)) l'
  | (_, None) :: l' => mayor_float mejor l'
  end.

Fixpoint primero_float (l : list (string * float64))
  : option ((string * Qc) * list (string * float64)) :=
  match l with
  | [] => None
  | (p, Some x) :: l' => Some ((p, x), l')
  | (_, None) :: l' => primero_float l'
  end.

Definition idxmax_float (s : list (string * float64)) : resultado string :=
  match primero_float s with
  | None => Lanza ValueError
  | Some (e, l) => Retorna (fst (mayor_float e l))
  end.

Definition max_float (s : list (string * float64)) : float64 :=
  match primero_float s with
  | None => NaN
  | Some (e, l) => Some (snd (mayor_float e l))
  end.

(** ** The aggregator *)

Record Metricas := {
  m_df : ref;
  ventas_mensuales : list (Mes * float64);
  cant_por_producto : list (string * Z);
  ingresos_por_producto : list (string * float64);
  producto_mas_vendido : string;
  cantidad_max : Z;
  producto_top_ingresos : string;
  ingresos_max : float64
}.

(** [df.copy()]: a new object with the same cells. *)
Definition copy (df : ref) : M ref :=
  d ← leer df; nuevo d.

(** [df["ingreso"] = df["cantidad"] * df["precio"]] *)
Definition ingreso_de (d : DataFrame) : list float64 :=
  zip_with mul_int_float (fmap cantidad (filas d)) (fmap precio (filas d)).

Definition asignar_ingreso (df : ref) : M unit :=
  d ← leer df;
  modificar df (fun d' => {| filas := filas d'; col_ingreso := Some (ingreso_de d) |}).

(** [df["ingreso"]]: the column, if the frame has it. *)
Definition columna_ingreso (d : DataFrame) : resultado (list float64) :=
  match col_ingreso d with
  | Some c => Retorna c
  | None => Lanza KeyError
  end.

Definition calcular_metricas (df : ref) : M Metricas :=
  df ← copy df;
  asignar_ingreso df;;
  d ← leer df;
  ingreso ← elevar (columna_ingreso d);
  let ventas_mensuales := resample_ME_sum (fmap fecha (filas d)) ingreso in
  let cant_por_producto :=
    sort_values_desc_int
      (groupby_sum_int (fmap producto (filas d)) (fmap cantidad (filas d))) in
  let ingresos_por_producto :=
    sort_values_desc_float
      (groupby_sum_float (fmap producto (filas d)) ingreso) in
  producto_mas_vendido ← elevar (idxmax_int cant_por_producto);
  cantidad_max ← elevar (int_de (max_int cant_por_producto));
  producto_top_ingresos ← elevar (idxmax_float ingresos_por_producto);
  let ingresos_max := max_float ingresos_por_producto in
  mret {| m_df := df;
          ventas_mensuales := ventas_mensuales;
          cant_por_producto := cant_por_producto;
          ingresos_por_producto := ingresos_por_producto;
          producto_mas_vendido := producto_mas_vendido;
          cantidad_max := cantidad_max;
          producto_top_ingresos := producto_top_ingresos;
          ingresos_max := ingresos_max |}.

(** ** Charts, report and entry point *)

Definition graficar_ventas_por_mes (vm : list (Mes * float64)) (outfile : string)
  : M unit :=
  escribir_archivo outfile.

Definition graficar_top5_productos (ingresos : list (string * float64))
    (outfile : string) : M unit :=
  let top5 := take 5 ingresos in
  escribir_archivo outfile.

Definition exportar_informe (m : Metricas) (outfile : string) : M unit :=
  escribir_archivo outfile.

Definition main (csv_path : archivo) : M unit :=
  df ← cargar_csv csv_path;
  m ← calcular_metricas df;
  graficar_ventas_por_mes (ventas_mensuales m) "ventas_por_mes.png";;
  graficar_top5_productos (ingresos_por_producto m) "ventas_top5_productos.png";;
  exportar_informe m "informe.txt".

(** The run of the program: its exit status and the files it wrote.  An
    uncaught [SystemExit(c)] ends the process with status [c], any other
    uncaught exception with status 1. *)
Record Proceso := { estado_salida : Z; archivos_creados : list string }.

Definition ejecutar (csv_path : archivo) : Proceso :=
  match main csv_path estado_inicial with
  | (Retorna _, s) => {| estado_salida := 0; archivos_creados := escritos s |}
  | (Lanza (SystemExit c), s) => {| estado_salida := c; archivos_creados := escritos s |}
  | (Lanza _, s) => {| estado_salida := 1; archivos_creados := escritos s |}
  end.

(** ** What a call of [calcular_metricas] leaves in the store *)

(** The reference of the copy made by [df.copy()]. *)
Definition copia_de (s : Estado) : ref := fresh (dom (objetos s)).

(** The copy once ["ingreso"] has been assigned. *)
Definition con_ingreso (d : DataFrame) : DataFrame :=
  {| filas := filas d; col_ingreso := Some (ingreso_de d) |}.

Definition estado_tras (s : Estado) (d : DataFrame) : Estado :=
  {| objetos := <[copia_de s := con_ingreso d]> (objetos s);
     escritos := escritos s |}.

(** The revenue of a row and the sums of the spec over the rows of a table. *)
Definition ingreso_fila (f : Fila) : float64 :=
  mul_int_float (cantidad f) (precio f).

Definition ingresos_del_mes (d : DataFrame) (k : Mes) : list float64 :=
  ingreso_fila <$> filter (fun f => ord_fecha (fecha f) = ord_mes k) (filas d).

Definition ingresos_del_producto (d : DataFrame) (p : string) : list float64 :=
  ingreso_fila <$> filter (fun f => producto f = Some p) (filas d).

Definition cantidades_del_producto (d : DataFrame) (p : string) : list Z :=
  cantidad <$> filter (fun f => producto f = Some p) (filas d).

(** The three series as functions of the table. *)
Definition serie_mensual (d : DataFrame) : list (Mes * float64) :=
  resample_ME_sum (fecha <$> filas d) (ingreso_de d).

Definition serie_cantidad (d : DataFrame) : list (string * Z) :=
  sort_values_desc_int
    (groupby_sum_int (producto <$> filas d) (cantidad <$> filas d)).

Definition serie_ingresos (d : DataFrame) : list (string * float64) :=
  sort_values_desc_float
    (groupby_sum_float (producto <$> filas d) (ingreso_de d)).

(** Descending order on entries; on floats it holds of defined values only. *)
Definition mayor_o_igual_int (a b : string * Z) : Prop := snd b <= snd a.

Definition mayor_o_igual_float (a b : string * float64) : Prop :=
  exists x y, snd a = Some x /\ snd b = Some y /\ (y <= x)%Qc.

Definition definido {K} (e : K * float64) : Prop := exists x, snd e = Some x.

(** The months of the rows, as ordinals, and the bins that [resample]
    makes of them. *)
Definition meses_de (d : DataFrame) : list Z :=
  (fun f => ord_fecha (fecha f)) <$> filas d.

Definition rango_meses (os : list Z) : list Z :=
  match os with
  | [] => []
  | o :: os' =>
      seqZ (foldr Z.min o os') (foldr Z.max o os' - foldr Z.min o os' + 1)
  end.

(** The sum of the defined values of the entries of [l] whose key is [k]. *)
Definition suma_de_clave {A} (clave : A -> Z) (valor : A -> float64)
    (l : list A) (k : Z) : Qc :=
  suma_float (valor <$> filter (fun a => clave a = k) l).

(** The ways in which the loader rejects its input: no file, a file that
    [pd.read_csv] cannot read, or a header that lacks a required column
    once normalised. *)
Definition carga_rechazada (a : archivo) : Prop :=
  a = NoExiste
  \/ (exists c e, a = Existe c /\ read_csv c = Lanza e)
  \/ (exists enc crudas req,
        a = Existe (Tabular enc crudas)
        /\ req ∈ requeridas
        /\ contiene (normalizar <$> enc) req = false).

(** ** Where binary64 does not round *)

Fixpoint potencia_de_2 (p : positive) : bool :=
  match p with
  | xH => true
  | xO p' => potencia_de_2 p'
  | xI _ => false
  end.

(** The product of the integer [c] and the price [q] is a binary64 number,
    so that the multiplication of the program does not round: [q] is
    [n / 2^k] with [k <= 1074], and [|c * n| < 2^53]. *)
Definition producto_exacto (c : Z) (q : Qc) : bool :=
  potencia_de_2 (Qden q) && (Zpos (Qden q) <=? 2 ^ 1074)
  && (Z.abs (c * Qnum q) <? 2 ^ 53).

(** The price of the row is a multiple of [2^-k] (or NaN). *)
Definition en_escala (k : Z) (f : Fila) : bool :=
  match precio f with
  | Some q => 2 ^ k mod Zpos (Qden q) =? 0
  | None => true
  end.

(** The revenue of the row counted in units of [2^-k], for a price that is
    a multiple of that unit; a row with a NaN price counts for nothing. *)
Definition unidades_fila (k : Z) (f : Fila) : Z :=
  match precio f with
  | Some q => cantidad f * Qnum q * (2 ^ k / Zpos (Qden q))
  | None => 0
  end.

Definition total_unidades (k : Z) (d : DataFrame) : Z :=
  suma_int (unidades_fila k <$> filas d).

(** Every price of the table is a multiple of [2^-k], with [0 <= k <= 1074],
    and the absolute revenues add up to less than [2^53] units: every
    product and every sum of revenues of the table, taken in whatever
    order, is a binary64 number, and no operation of the program rounds. *)
Definition sumas_exactas (k : Z) (d : DataFrame) : bool :=
  (0 <=? k) && (k <=? 1074)
  && forallb (en_escala k) (filas d)
  && (suma_int (Z.abs <$> (unidades_fila k <$> filas d)) <? 2 ^ 53).

(** ** The revenue column and its sums in binary64 *)

Definition binary64 : Type := spec_float.

Definition b64_add : binary64 -> binary64 -> binary64 := SFadd 53 1024.
Definition b64_sub : binary64 -> binary64 -> binary64 := SFsub 53 1024.
Definition b64_mul : binary64 -> binary64 -> binary64 := SFmul 53 1024.
Definition b64_div : binary64 -> binary64 -> binary64 := SFdiv 53 1024.

(** The conversion of an integer, rounded to nearest. *)
Definition b64_de_Z (z : Z) : binary64 := binary_normalize 53 1024 z 0 false.

(** The binary64 number nearest to the fraction [n / d], for [n] and [d]
    below [2^53]: the number that a decimal such as [0.1] reads as. *)
Definition b64_de_fraccion (n : Z) (d : positive) : binary64 :=
  b64_div (b64_de_Z n) (b64_de_Z (Zpos d)).

Definition b64_de_float (x : float64) : binary64 :=
  match x with
  | Some q => b64_de_fraccion (Qnum q) (Qden q)
  | None => S754_nan
  end.

Definition b64_es_nan (x : binary64) : bool :=
  match x with
  | S754_nan => true
  | _ => false
  end.

(** [df["cantidad"] * df["precio"]] *)
Definition ingreso_b64 (d : DataFrame) : list binary64 :=
  zip_with (fun c p => b64_mul (b64_de_Z c) (b64_de_float p))
    (cantidad <$> filas d) (precio <$> filas d).

(** [Series.sum()]: the values that are not NaN, added from the first to
    the last (the order in which numpy adds fewer than eight values; a
    longer column is added in blocks, which is not modelled). *)
Definition sum_b64 (l : list binary64) : binary64 :=
  fold_left (fun acc x => if b64_es_nan x then acc else b64_add acc x)
    l (b64_de_Z 0).

(** The sum of a bin of [resample] and of a group of [groupby], which
    pandas adds with Kahan's compensation (a compensation that is NaN is
    reset to 0). *)
Definition sum_kahan_b64 (l : list binary64) : binary64 :=
  fst (fold_left
         (fun sc x =>
            if b64_es_nan x then sc
            else
              let y := b64_sub x (snd sc) in
              let t := b64_add (fst sc) y in
              let c := b64_sub (b64_sub t (fst sc)) y in
              (t, if b64_es_nan c then b64_de_Z 0 else c))
         l (b64_de_Z 0, b64_de_Z 0)).

(** [.resample("ME")["ingreso"].sum()], the bins added by [suma_bin]. *)
Definition resample_ME_sum_b64 (suma_bin : list binary64 -> binary64)
    (fechas : list Fecha) (vals : list binary64) : list (Mes * binary64) :=
  match fmap ord_fecha fechas with
  | [] => []
  | o :: os =>
      let primero := foldr Z.min o os in
      let ultimo := foldr Z.max o os in
      fmap (fun k =>
             (mes_de_ord k,
              suma_bin
                (fmap snd (filter (fun fv => ord_fecha (fst fv) = k) (zip fechas vals)))))
          (seqZ primero (ultimo - primero + 1))
  end.

Definition serie_mensual_b64 (suma_bin : list binary64 -> binary64)
    (d : DataFrame) : list (Mes * binary64) :=
  resample_ME_sum_b64 suma_bin (fecha <$> filas d) (ingreso_b64 d).

(** ** Sample inputs *)

Definition el_dia (a m d : Z) : Fecha := {| anio := a; mes := m; dia := d |}.

Definition fila_de (f : Fecha) (p : option string) (c : Z) (pr : float64) : Fila :=
  {| fecha := f; producto := p; cantidad := c; precio := pr |}.

Definition tabla_de (fs : list Fila) : DataFrame :=
  {| filas := fs; col_ingreso := None |}.

Definition estado_con (d : DataFrame) : Estado :=
  {| objetos := {[ 0%nat := d ]}; escritos := [] |}.

(** The table of the specification: A sells 3 at 10.0 and 2 at 10.0, B sells
    1 at 50.0. *)
Definition tabla_ejemplo : DataFrame :=
  tabla_de
    [ fila_de (el_dia 2024 1 5) (Some "A"%string) 3 (Some (Qc_of_Z 10));
      fila_de (el_dia 2024 1 20) (Some "B"%string) 1 (Some (Qc_of_Z 50));
      fila_de (el_dia 2024 2 1) (Some "A"%string) 2 (Some (Qc_of_Z 10)) ].

(** January and March, nothing in February. *)
Definition tabla_con_hueco : DataFrame :=
  tabla_de
    [ fila_de (el_dia 2024 1 5) (Some "A"%string) 3 (Some (Qc_of_Z 10));
      fila_de (el_dia 2024 3 9) (Some "A"%string) 1 (Some (Qc_of_Z 10)) ].

(** One row whose price is undefined. *)
Definition tabla_precio_nan : DataFrame :=
  tabla_de [ fila_de (el_dia 2024 1 5) (Some "A"%string) 3 NaN ].

(** Prices with a fractional part that binary64 holds exactly: 2.5 and
    0.75. *)
Definition tabla_fracciones : DataFrame :=
  tabla_de
    [ fila_de (el_dia 2024 1 5) (Some "A"%string) 3 (Some (Q2Qc (5 # 2)));
      fila_de (el_dia 2024 1 20) (Some "B"%string) 4 (Some (Q2Qc (3 # 4)));
      fila_de (el_dia 2024 3 1) (Some "A"%string) 2 NaN ].

(** Decimal prices: 0.1 in January, 0.2 and 0.3 in February, one unit
    each. *)
Definition tabla_decimales : DataFrame :=
  tabla_de
    [ fila_de (el_dia 2024 1 10) (Some "A"%string) 1 (Some (Q2Qc (1 # 10)));
      fila_de (el_dia 2024 2 5) (Some "A"%string) 1 (Some (Q2Qc (2 # 10)));
      fila_de (el_dia 2024 2 20) (Some "B"%string) 1 (Some (Q2Qc (3 # 10))) ].

(** One row whose product cell is empty. *)
Definition tabla_sin_producto : DataFrame :=
  tabla_de [ fila_de (el_dia 2024 1 5) None 3 (Some (Qc_of_Z 10)) ].

Definition cruda_de (f : Fecha) (p : option string) (c pr : celda) : FilaCruda :=
  {| cr_fecha := f; cr_producto := p; cr_cantidad := Finita c; cr_precio := pr |}.

Definition encabezados_ejemplo : list string :=
  ["fecha"; "producto"; "cantidad"; "precio"]%string.

(** A file with a negative, a non-numeric and an empty quantity. *)
Definition archivo_cantidades : archivo :=
  Existe (Tabular encabezados_ejemplo
    [ cruda_de (el_dia 2024 1 5) (Some "A"%string) (Numero (Qc_of_Z (-3))) (Numero (Qc_of_Z 10));
      cruda_de (el_dia 2024 1 6) (Some "B"%string) (Texto "abc") (Numero (Qc_of_Z 50));
      cruda_de (el_dia 2024 1 7) (Some "B"%string) Vacia (Texto "n/d") ]).

(** A file whose second quantity reads as an infinity. *)
Definition archivo_cantidad_infinita : archivo :=
  Existe (Tabular encabezados_ejemplo
    [ cruda_de (el_dia 2024 1 5) (Some "A"%string) (Numero (Qc_of_Z 3)) (Numero (Qc_of_Z 10));
      {| cr_fecha := el_dia 2024 1 6; cr_producto := Some "B"%string;
         cr_cantidad := Infinita false; cr_precio := Numero (Qc_of_Z 50) |} ]).

(** A file without the column ["precio"]. *)
Definition archivo_sin_precio : archivo :=
  Existe (Tabular ["fecha"; "producto"; "cantidad"]%string
    [ cruda_de (el_dia 2024 1 5) (Some "A"%string) (Numero (Qc_of_Z 3)) Vacia ]).

(** ** The loaded row and the data of the charts *)

(** The quantity that the loader stores for a cell that is not an infinity:
    [to_numeric], [fillna(0)], [astype(int)]. *)
Definition cantidad_de_celda (c : celda_cantidad) : Z :=
  match astype_int (fillna0_inf (to_numeric_cantidad c)) with
  | Retorna z => z
  | Lanza _ => 0
  end.

(** The quantity cell of the row does not read as an infinity. *)
Definition cantidad_finita (c : FilaCruda) : bool :=
  match cr_cantidad c with
  | Finita _ => true
  | Infinita _ => false
  end.


(** The row of the table that the loader makes of a row of the file. *)
Definition fila_cargada (c : FilaCruda) : Fila :=
  armar_fila c (cantidad_de_celda (cr_cantidad c), to_numeric (cr_precio c)).

(** The header check of the loader as one test: the date column is named
    ["fecha"] as written, and the normalised names hold the four required
    ones. *)
Definition encabezado_aceptado (enc : list string) : bool :=
  contiene enc "fecha" && forallb (contiene (normalizar <$> enc)) requeridas.

(** [ingresos_por_producto.head(5)]: the bars of the top-5 chart. *)
Definition top5_de (ingresos : list (string * float64)) : list (string * float64) :=
  take 5 ingresos.

(** The three files of a complete run, in the order [main] writes them. *)
Definition archivos_de_salida : list string :=
  ["ventas_por_mes.png"; "ventas_top5_productos.png"; "informe.txt"]%string.

(** A file whose date column is headed ["Fecha"]. *)
Definition archivo_fecha_mayuscula : archivo :=
  Existe (Tabular ["Fecha"; "producto"; "cantidad"; "precio"]%string
    [ cruda_de (el_dia 2024 1 5) (Some "A"%string) (Numero (Qc_of_Z 3)) (Numero (Qc_of_Z 10)) ]).

(** A file with untidy column names and one more column. *)
Definition archivo_encabezado_sucio : archivo :=
  Existe (Tabular ["fecha"; " Producto "; "CANTIDAD"; "Precio!"; "Vendedor"]%string
    [ cruda_de (el_dia 2024 1 5) (Some "A"%string) (Numero (Qc_of_Z 3)) (Numero (Qc_of_Z 10));
      cruda_de (el_dia 2024 1 7) (Some "B"%string) (Numero (Q2Qc (5 # 2))) (Texto "n/d") ]).

(** A file with the right header and no row. *)
Definition archivo_sin_filas : archivo :=
  Existe (Tabular encabezados_ejemplo []).


(** Six products, one row each. *)
Definition tabla_seis_productos : DataFrame :=
  tabla_de
    [ fila_de (el_dia 2024 1 5) (Some "A"%string) 1 (Some (Qc_of_Z 10));
      fila_de (el_dia 2024 1 6) (Some "B"%string) 1 (Some (Qc_of_Z 60));
      fila_de (el_dia 2024 1 7) (Some "C"%string) 1 (Some (Qc_of_Z 30));
      fila_de (el_dia 2024 1 8) (Some "D"%string) 1 (Some (Qc_of_Z 50));
      fila_de (el_dia 2024 1 9) (Some "E"%string) 1 (Some (Qc_of_Z 20));
      fila_de (el_dia 2024 1 10) (Some "F"%string) 1 (Some (Qc_of_Z 40)) ].

(** ** The labels of the monthly chart *)

Definition digito (d : Z) : ascii := ascii_of_N (48 + Z.to_N d).

(** [strftime("%Y-%m")] of a month: the four digits of the year, a dash and
    the two digits of the month (years from 1000 to 9999). *)
Definition etiqueta_mes (k : Mes) : string :=
  String (digito (fst k / 1000 mod 10))
    (String (digito (fst k / 100 mod 10))
       (String (digito (fst k / 10 mod 10))
          (String (digito (fst k mod 10))
             (String "-"
                (String (digito (snd k / 10 mod 10))
                   (String (digito (snd k mod 10)) EmptyString)))))).

(** [vm = ventas_mensuales.copy(); vm.index = vm.index.strftime("%Y-%m")]:
    the series that the monthly chart draws. *)
Definition etiquetar_meses (vm : list (Mes * float64)) : list (string * float64) :=
  (fun kv => (etiqueta_mes (fst kv), snd kv)) <$> vm.

(** A month that a date of the supported years can have. *)
Definition mes_imprimible (k : Mes) : Prop :=
  1000 <= fst k <= 9999 /\ 1 <= snd k <= 12.

(** ** Properties *)

Ltac paso :=
  cbn -[fresh resample_ME_sum sort_values_desc_int sort_values_desc_float
        groupby_sum_int groupby_sum_float idxmax_int max_int idxmax_float
        max_float ingreso_de].

Lemma copia_de_fresca s : objetos s !! copia_de s = None.
Proof.
  apply not_elem_of_dom. unfold copia_de. apply is_fresh.
Qed.

Lemma calcular_metricas_estado df s d :
  objetos s !! df = Some d ->
  snd (calcular_metricas df s) = estado_tras s d.
Proof.
  intros Hd.
  unfold calcular_metricas, copy, asignar_ingreso, mbind, M_bind, ligar,
    leer, nuevo, modificar, elevar, mret, M_ret, retornar.
  paso. rewrite Hd. paso.
  fold (copia_de s).
  repeat (rewrite ?lookup_insert_eq, ?insert_insert_eq; paso).
  repeat match goal with
         | |- context [match ?r with Retorna _ => _ | Lanza _ => _ end] =>
             destruct r; paso
         end; reflexivity.
Qed.

Lemma calcular_metricas_inv df s d m s' :
  objetos s !! df = Some d ->
  calcular_metricas df s = (Retorna m, s') ->
  s' = estado_tras s d /\ m_df m = copia_de s
  /\ ventas_mensuales m = serie_mensual d
  /\ cant_por_producto m = serie_cantidad d
  /\ ingresos_por_producto m = serie_ingresos d
  /\ idxmax_int (serie_cantidad d) = Retorna (producto_mas_vendido m)
  /\ max_int (serie_cantidad d) = Some (cantidad_max m)
  /\ idxmax_float (serie_ingresos d) = Retorna (producto_top_ingresos m)
  /\ ingresos_max m = max_float (serie_ingresos d).
Proof.
  intros Hd.
  unfold calcular_metricas, copy, asignar_ingreso, mbind, M_bind, ligar,
    leer, nuevo, modificar, elevar, mret, M_ret, retornar.
  paso. rewrite Hd. paso.
  fold (copia_de s).
  repeat (rewrite ?lookup_insert_eq, ?insert_insert_eq; paso).
  fold (con_ingreso d). fold (estado_tras s d).
  fold (serie_cantidad d). fold (serie_ingresos d). fold (serie_mensual d).
  destruct (idxmax_int (serie_cantidad d)) as [p1|]; paso; [|discriminate].
  destruct (max_int (serie_cantidad d)) as [c|]; paso; [|discriminate].
  destruct (idxmax_float (serie_ingresos d)) as [p2|]; paso; [|discriminate].
  intros [= <- <-]. cbn. repeat split; reflexivity.
Qed.

Lemma calcular_metricas_retorna df s d p1 c p2 :
  objetos s !! df = Some d ->
  idxmax_int (serie_cantidad d) = Retorna p1 ->
  max_int (serie_cantidad d) = Some c ->
  idxmax_float (serie_ingresos d) = Retorna p2 ->
  exists m, calcular_metricas df s = (Retorna m, estado_tras s d).
Proof.
  intros Hd H1 H2 H3.
  unfold calcular_metricas, copy, asignar_ingreso, mbind, M_bind, ligar,
    leer, nuevo, modificar, elevar, mret, M_ret, retornar.
  paso. rewrite Hd. paso.
  fold (copia_de s).
  repeat (rewrite ?lookup_insert_eq, ?insert_insert_eq; paso).
  fold (con_ingreso d). fold (estado_tras s d).
  fold (serie_cantidad d). fold (serie_ingresos d). fold (serie_mensual d).
  rewrite H1. paso. rewrite H2. paso. rewrite H3. paso.
  eexists. reflexivity.
Qed.

(** *** The revenue column *)



Lemma ingreso_de_fmap d : ingreso_de d = ingreso_fila <$> filas d.
Proof.
  unfold ingreso_de. induction (filas d) as [|f fs IH]; [reflexivity|].
  cbn. f_equal. exact IH.
Qed.



(** *** The table given to the aggregator is not changed *)

(** C9. [calcular_metricas] does not change the table it is given: after
    the call the object at the reference it received holds the same cells
    (and so does every other object that existed before the call); the
    frame it returns under ["df"] is a new object, and it is that object
    which holds the derived column. *)
Theorem calcular_metricas_no_muta df s d :
  objetos s !! df = Some d ->
  objetos (snd (calcular_metricas df s)) !! df = Some d
  /\ (forall r d0, objetos s !! r = Some d0 ->
        objetos (snd (calcular_metricas df s)) !! r = Some d0)
  /\ (forall m, fst (calcular_metricas df s) = Retorna m ->
        m_df m <> df /\ objetos s !! m_df m = None
        /\ objetos (snd (calcular_metricas df s)) !! m_df m = Some (con_ingreso d)).
Proof.
  intros Hd. rewrite (calcular_metricas_estado _ _ _ Hd).
  assert (Hpre : forall r d0, objetos s !! r = Some d0 ->
                   objetos (estado_tras s d) !! r = Some d0).
  { intros r d0 Hr. unfold estado_tras. cbn [objetos].
    rewrite lookup_insert_ne; [exact Hr|].
    intros <-. rewrite copia_de_fresca in Hr. discriminate. }
  split; [apply Hpre, Hd|]. split; [exact Hpre|].
  intros m Hm. destruct (calcular_metricas df s) as [r s'] eqn:E.
  cbn in Hm. subst r.
  apply (calcular_metricas_inv _ _ _ _ _ Hd) in E.
  destruct E as (_ & -> & _).
  split; [|split].
  - intros Heq. rewrite <- Heq, copia_de_fresca in Hd. discriminate.
  - apply copia_de_fresca.
  - apply lookup_insert_eq.
Qed.

Lemma calcular_metricas_no_muta_witness :
  objetos (snd (calcular_metricas 0%nat (estado_con tabla_ejemplo))) !! 0%nat
  = Some tabla_ejemplo.
Proof.
  destruct (calcular_metricas_no_muta 0%nat (estado_con tabla_ejemplo)
              tabla_ejemplo) as [H _]; [reflexivity | exact H].
Defined.

(** *** The sort *)

Section OrdenarProps.
Context {A : Type} (leb : A -> A -> bool).

Lemma insertar_Permutation x l : insertar leb x l ≡ₚ x :: l.
Proof.
  induction l as [|y l IH]; cbn; [reflexivity|].
  destruct (leb x y); [reflexivity|].
  rewrite IH. apply perm_swap.
Qed.

Lemma ordenar_Permutation l : ordenar leb l ≡ₚ l.
Proof.
  induction l as [|x l IH]; cbn; [reflexivity|].
  rewrite insertar_Permutation, IH. reflexivity.
Qed.

Lemma elem_of_ordenar x l : x ∈ ordenar leb l <-> x ∈ l.
Proof. rewrite ordenar_Permutation. reflexivity. Qed.

(** Sortedness, for a comparison that is total and transitive on the
    entries that satisfy [P]. *)
Context (P : A -> Prop) (R : A -> A -> Prop).
Hypothesis leb_true : forall x y, P x -> P y -> leb x y = true -> R x y.
Hypothesis leb_false : forall x y, P x -> P y -> leb x y = false -> R y x.
Hypothesis R_trans : forall x y z, R x y -> R y z -> R x z.

Lemma insertar_sorted x l :
  P x -> Forall P l -> StronglySorted R l ->
  StronglySorted R (insertar leb x l).
Proof.
  intros Hx HP Hs. induction Hs as [|y l Hs IH Hy]; cbn.
  - repeat constructor.
  - apply Forall_cons in HP as [Py HP].
    destruct (leb x y) eqn:E.
    + constructor; [constructor; assumption|].
      constructor; [apply leb_true; assumption|].
      eapply Forall_impl; [exact Hy|].
      intros z Hz. eapply R_trans; [|exact Hz]. apply leb_true; assumption.
    + constructor; [apply IH, HP|].
      rewrite insertar_Permutation. constructor; [|exact Hy].
      apply leb_false; assumption.
Qed.

Lemma ordenar_sorted l : Forall P l -> StronglySorted R (ordenar leb l).
Proof.
  induction l as [|x l IH]; cbn; intros HP; [constructor|].
  apply Forall_cons in HP as [Px HP].
  apply insertar_sorted; [exact Px| |apply IH, HP].
  rewrite ordenar_Permutation. exact HP.
Qed.
End OrdenarProps.

(** *** Groups *)

Lemma elem_of_claves_grupo etiquetas p :
  p ∈ claves_grupo etiquetas <-> Some p ∈ etiquetas.
Proof.
  unfold claves_grupo.
  rewrite elem_of_ordenar, elem_of_remove_dups, list_elem_of_omap.
  split.
  - intros (x & Hx & Hid). cbn in Hid. subst x. exact Hx.
  - intros Hp. exists (Some p). split; [exact Hp|reflexivity].
Qed.

Lemma NoDup_claves_grupo etiquetas : NoDup (claves_grupo etiquetas).
Proof.
  unfold claves_grupo. rewrite ordenar_Permutation. apply NoDup_remove_dups.
Qed.

Lemma valores_grupo_filas {V} (g : Fila -> V) (fs : list Fila) p :
  valores_grupo (producto <$> fs) (g <$> fs) p
  = g <$> filter (fun f => producto f = Some p) fs.
Proof.
  unfold valores_grupo.
  induction fs as [|f fs IH]; [reflexivity|].
  cbn [fmap list_fmap zip zip_with]. rewrite !filter_cons. cbn [fst].
  destruct (decide (producto f = Some p)); cbn; rewrite IH; reflexivity.
Qed.

Lemma producto_en_filas (fs : list Fila) p :
  Some p ∈ producto <$> fs <-> exists f, f ∈ fs /\ producto f = Some p.
Proof.
  rewrite list_elem_of_fmap. split.
  - intros (f & Hp & Hf). eauto.
  - intros (f & Hf & Hp). eauto.
Qed.

Lemma Qc_leb_true x y : Qc_leb x y = true -> (x <= y)%Qc.
Proof. unfold Qc_leb, Qcle. apply Qle_bool_iff. Qed.

Lemma Qc_leb_false x y : Qc_leb x y = false -> (y <= x)%Qc.
Proof.
  intros H. apply Qclt_le_weak, Qcnot_le_lt. intros Hle.
  apply Qle_bool_iff in Hle. unfold Qc_leb in H. congruence.
Qed.

Lemma sort_values_desc_int_sorted s :
  StronglySorted mayor_o_igual_int (sort_values_desc_int s).
Proof.
  unfold sort_values_desc_int.
  apply (ordenar_sorted desc_int (fun _ => True)).
  - intros x y _ _ H. unfold desc_int in H. unfold mayor_o_igual_int. lia.
  - intros x y _ _ H. unfold desc_int in H. unfold mayor_o_igual_int. lia.
  - unfold mayor_o_igual_int. intros x y z ? ?. lia.
  - apply Forall_forall. intros; exact I.
Qed.

Lemma ordenar_desc_float_sorted s :
  Forall definido s -> StronglySorted mayor_o_igual_float (ordenar desc_float s).
Proof.
  apply (ordenar_sorted desc_float definido).
  - intros a b [x Hx] [y Hy] H. unfold desc_float in H. rewrite Hx, Hy in H.
    exists x, y. auto using Qc_leb_true.
  - intros a b [x Hx] [y Hy] H. unfold desc_float in H. rewrite Hx, Hy in H.
    exists y, x. auto using Qc_leb_false.
  - intros a b c (x & y & Ha & Hb & Hxy) (y' & z & Hb' & Hc & Hyz).
    rewrite Hb in Hb'. injection Hb' as <-.
    exists x, z. split; [exact Ha|]. split; [exact Hc|].
    eapply Qcle_trans; eassumption.
Qed.

(** Group sums are never NaN, so [sort_values] has no NaN entry to move. *)
Lemma filter_definidos (g : string -> list float64) (ks : list string) :
  filter (fun e : string * float64 => snd e <> NaN)
    ((fun p => (p, sum_skipna (g p))) <$> ks)
  = (fun p => (p, sum_skipna (g p))) <$> ks.
Proof.
  induction ks as [|k ks IH]; [reflexivity|].
  cbn [fmap list_fmap]. rewrite filter_cons_True; [|discriminate].
  f_equal. exact IH.
Qed.

Lemma filter_nan (g : string -> list float64) (ks : list string) :
  filter (fun e : string * float64 => snd e = NaN)
    ((fun p => (p, sum_skipna (g p))) <$> ks)
  = [].
Proof.
  induction ks as [|k ks IH]; [reflexivity|].
  cbn [fmap list_fmap]. rewrite filter_cons_False; [exact IH|discriminate].
Qed.

Lemma serie_ingresos_eq d :
  serie_ingresos d
  = ordenar desc_float
      ((fun p => (p, sum_skipna (ingresos_del_producto d p)))
         <$> claves_grupo (producto <$> filas d)).
Proof.
  unfold serie_ingresos, sort_values_desc_float, groupby_sum_float.
  rewrite filter_definidos, filter_nan, app_nil_r.
  f_equal. apply list_fmap_ext. intros _ p _.
  rewrite ingreso_de_fmap, valores_grupo_filas. reflexivity.
Qed.

Lemma serie_cantidad_eq d :
  serie_cantidad d
  = ordenar desc_int
      ((fun p => (p, suma_int (cantidades_del_producto d p)))
         <$> claves_grupo (producto <$> filas d)).
Proof.
  unfold serie_cantidad, sort_values_desc_int, groupby_sum_int.
  f_equal. apply list_fmap_ext. intros _ p _.
  rewrite valores_grupo_filas. reflexivity.
Qed.

Lemma elem_of_serie_cantidad d p c :
  (p, c) ∈ serie_cantidad d
  <-> (exists f, f ∈ filas d /\ producto f = Some p)
      /\ c = suma_int (cantidades_del_producto d p).
Proof.
  rewrite serie_cantidad_eq, elem_of_ordenar, list_elem_of_fmap.
  setoid_rewrite elem_of_claves_grupo. setoid_rewrite producto_en_filas.
  split.
  - intros (q & [= -> ->] & Hq). auto.
  - intros [Hp ->]. exists p. auto.
Qed.

Lemma elem_of_serie_ingresos d p v :
  (p, v) ∈ serie_ingresos d
  <-> (exists f, f ∈ filas d /\ producto f = Some p)
      /\ v = Some (suma_float (ingresos_del_producto d p)).
Proof.
  rewrite serie_ingresos_eq, elem_of_ordenar, list_elem_of_fmap.
  setoid_rewrite elem_of_claves_grupo. setoid_rewrite producto_en_filas.
  split.
  - intros (q & [= -> ->] & Hq). auto.
  - intros [Hp ->]. exists p. auto.
Qed.

Lemma serie_ingresos_definidos d : Forall definido (serie_ingresos d).
Proof.
  apply Forall_forall. intros [p v] H.
  apply elem_of_serie_ingresos in H as [_ ->]. eexists. reflexivity.
Qed.

(** C7. The quantity-by-product and the revenue-by-product series returned
    by [calcular_metricas] are each in non-increasing order of their values
    (every revenue sum being a defined number). *)
Theorem series_por_producto_ordenadas df s d m s' :
  objetos s !! df = Some d ->
  calcular_metricas df s = (Retorna m, s') ->
  StronglySorted (fun a b : string * Z => snd b <= snd a) (cant_por_producto m)
  /\ StronglySorted
       (fun a b : string * float64 =>
          exists x y, snd a = Some x /\ snd b = Some y /\ (y <= x)%Qc)
       (ingresos_por_producto m).
Proof.
  intros Hd Hm.
  apply (calcular_metricas_inv _ _ _ _ _ Hd) in Hm
    as (_ & _ & _ & -> & -> & _).
  split.
  - apply sort_values_desc_int_sorted.
  - rewrite serie_ingresos_eq. apply ordenar_desc_float_sorted.
    rewrite <- (ordenar_Permutation desc_float), <- serie_ingresos_eq.
    apply serie_ingresos_definidos.
Qed.

Lemma series_por_producto_ordenadas_witness :
  exists m s',
    calcular_metricas 0%nat (estado_con tabla_ejemplo) = (Retorna m, s')
    /\ StronglySorted (fun a b : string * Z => snd b <= snd a) (cant_por_producto m)
    /\ StronglySorted
         (fun a b : string * float64 =>
            exists x y, snd a = Some x /\ snd b = Some y /\ (y <= x)%Qc)
         (ingresos_por_producto m).
Proof.
  pose proof (series_por_producto_ordenadas 0%nat (estado_con tabla_ejemplo)
                tabla_ejemplo) as H.
  destruct (calcular_metricas 0%nat (estado_con tabla_ejemplo))
    as [[m|e] s'] eqn:E; [|vm_compute in E; discriminate].
  exists m, s'. split; [reflexivity|].
  apply (H m s'); reflexivity.
Defined.

(** *** The top lookups *)

Lemma mayor_int_spec mejor l :
  mayor_int mejor l ∈ mejor :: l
  /\ forall e, e ∈ mejor :: l -> snd e <= snd (mayor_int mejor l).
Proof.
  revert mejor. induction l as [|e l IH]; intros mejor; cbn [mayor_int].
  - split; [left|]. intros e He. apply list_elem_of_singleton in He as ->. lia.
  - destruct (IH (if snd mejor <? snd e then e else mejor)) as [Hin Hmax].
    split.
    + apply elem_of_cons in Hin as [Hin|Hin]; [|do 2 right; exact Hin].
      rewrite Hin. destruct (snd mejor <? snd e); [right; left|left].
    + intros x Hx.
      assert (Hb : snd mejor <= snd (if snd mejor <? snd e then e else mejor)
                   /\ snd e <= snd (if snd mejor <? snd e then e else mejor)).
      { destruct (Z.ltb_spec (snd mejor) (snd e)); lia. }
      pose proof (Hmax _ (list_elem_of_here _ _)) as Hb'.
      apply elem_of_cons in Hx as [->|Hx]; [lia|].
      apply elem_of_cons in Hx as [->|Hx]; [lia|].
      apply Hmax. right. exact Hx.
Qed.

Lemma idxmax_int_spec s p c :
  idxmax_int s = Retorna p -> max_int s = Some c ->
  (p, c) ∈ s /\ forall e, e ∈ s -> snd e <= c.
Proof.
  destruct s as [|e l]; [discriminate|]. cbn.
  intros [= <-] [= <-]. rewrite <- surjective_pairing.
  apply mayor_int_spec.
Qed.

Lemma mayor_float_spec mejor l :
  (fst (mayor_float mejor l), Some (snd (mayor_float mejor l)))
    ∈ (fst mejor, Some (snd mejor)) :: l
  /\ forall q y, (q, Some y) ∈ (fst mejor, Some (snd mejor)) :: l ->
       (y <= snd (mayor_float mejor l))%Qc.
Proof.
  revert mejor. induction l as [|[p [x|]] l IH]; intros mejor; cbn [mayor_float].
  - split; [left|]. intros q y Hq.
    apply list_elem_of_singleton in Hq. injection Hq as _ ->. apply Qcle_refl.
  - destruct (IH (if Qc_leb x (snd mejor) then mejor else (p, x))) as [Hin Hmax].
    assert (Hb : (snd mejor <= snd (if Qc_leb x (snd mejor) then mejor else (p, x)))%Qc
                 /\ (x <= snd (if Qc_leb x (snd mejor) then mejor else (p, x)))%Qc).
    { destruct (Qc_leb x (snd mejor)) eqn:E; cbn.
      - split; [apply Qcle_refl|apply Qc_leb_true, E].
      - split; [apply Qc_leb_false, E|apply Qcle_refl]. }
    pose proof (Hmax _ _ (list_elem_of_here _ _)) as Hb'.
    split.
    + apply elem_of_cons in Hin as [Hin|Hin]; [|do 2 right; exact Hin].
      rewrite Hin. destruct (Qc_leb x (snd mejor)); [left|right; left].
    + intros q y Hq.
      apply elem_of_cons in Hq as [Hq|Hq].
      { injection Hq as _ ->. eapply Qcle_trans; [apply Hb|exact Hb']. }
      apply elem_of_cons in Hq as [Hq|Hq].
      { injection Hq as _ ->. eapply Qcle_trans; [apply Hb|exact Hb']. }
      apply (Hmax q). right. exact Hq.
  - destruct (IH mejor) as [Hin Hmax]. split.
    + apply elem_of_cons in Hin as [Hin|Hin]; [rewrite Hin; left|do 2 right; exact Hin].
    + intros q y Hq.
      apply elem_of_cons in Hq as [Hq|Hq]; [apply (Hmax q); rewrite Hq; left|].
      apply elem_of_cons in Hq as [Hq|Hq]; [discriminate|].
      apply (Hmax q). right. exact Hq.
Qed.

Lemma primero_float_spec s e l :
  primero_float s = Some (e, l) ->
  forall q v, (q, v) ∈ s <-> (v = None /\ (q, v) ∈ s)
                              \/ (q, v) ∈ (fst e, Some (snd e)) :: l.
Proof.
  revert e l. induction s as [|[p [x|]] s IH]; intros e l; cbn [primero_float].
  - discriminate.
  - intros [= <- <-] q v. cbn [fst snd]. tauto.
  - intros H q v. specialize (IH _ _ H q v).
    rewrite !(elem_of_cons s). split.
    + intros [[= -> ->]|Hs]; [left; split; [reflexivity|left; reflexivity]|].
      apply IH in Hs as [[-> Hs]|Hs]; [left; split; [reflexivity|right; exact Hs]|].
      right. exact Hs.
    + intros [[-> [Hs|Hs]]|Hs]; [left; exact Hs|right..].
      * apply IH. left. split; [reflexivity|exact Hs].
      * apply IH. right. exact Hs.
Qed.

Lemma idxmax_float_spec s p :
  idxmax_float s = Retorna p ->
  exists x, max_float s = Some x /\ (p, Some x) ∈ s
            /\ forall q y, (q, Some y) ∈ s -> (y <= x)%Qc.
Proof.
  unfold idxmax_float, max_float.
  destruct (primero_float s) as [[e l]|] eqn:E; [|discriminate].
  intros [= <-]. exists (snd (mayor_float e l)).
  destruct (mayor_float_spec e l) as [Hin Hmax].
  split; [reflexivity|]. split.
  - apply (primero_float_spec _ _ _ E). right. exact Hin.
  - intros q y Hq. apply (primero_float_spec _ _ _ E) in Hq as [[Hq _]|Hq];
      [discriminate|]. apply (Hmax q). exact Hq.
Qed.

Lemma primero_float_definido s :
  Forall definido s -> s <> [] -> exists e l, primero_float s = Some (e, l).
Proof.
  destruct s as [|[p v] s]; [congruence|].
  intros H _. apply Forall_cons in H as [[x Hx] _]. cbn in Hx. subst v.
  cbn. eauto.
Qed.

(** C8. The top-by-quantity result of [calcular_metricas] is an entry of
    the quantity-by-product series, a product together with its summed
    quantity, and no entry of the series has a larger value; the
    top-by-revenue result is likewise an entry of the revenue-by-product
    series with the largest value. *)
Theorem top_es_el_maximo df s d m s' :
  objetos s !! df = Some d ->
  calcular_metricas df s = (Retorna m, s') ->
  ((producto_mas_vendido m, cantidad_max m) ∈ cant_por_producto m
   /\ (forall p c, (p, c) ∈ cant_por_producto m -> c <= cantidad_max m)
   /\ cantidad_max m
      = suma_int (cantidades_del_producto d (producto_mas_vendido m)))
  /\ exists x,
       ingresos_max m = Some x
       /\ (producto_top_ingresos m, Some x) ∈ ingresos_por_producto m
       /\ (forall p y, (p, Some y) ∈ ingresos_por_producto m -> (y <= x)%Qc)
       /\ x = suma_float (ingresos_del_producto d (producto_top_ingresos m)).
Proof.
  intros Hd Hm.
  apply (calcular_metricas_inv _ _ _ _ _ Hd) in Hm
    as (_ & _ & _ & -> & -> & Hi & Hc & Hf & ->).
  destruct (idxmax_int_spec _ _ _ Hi Hc) as [Hin Hmax].
  destruct (idxmax_float_spec _ _ Hf) as (x & Hx & Hxin & Hxmax).
  split; [split; [exact Hin|split]|].
  - intros p c Hp. apply (Hmax (p, c) Hp).
  - apply elem_of_serie_cantidad in Hin. tauto.
  - exists x. split; [exact Hx|]. split; [exact Hxin|]. split; [exact Hxmax|].
    apply elem_of_serie_ingresos in Hxin as [_ Heq]. congruence.
Qed.

Lemma top_es_el_maximo_witness :
  exists m s',
    calcular_metricas 0%nat (estado_con tabla_ejemplo) = (Retorna m, s')
    /\ (producto_mas_vendido m, cantidad_max m) ∈ cant_por_producto m
    /\ cantidad_max m = 5.
Proof.
  pose proof (top_es_el_maximo 0%nat (estado_con tabla_ejemplo) tabla_ejemplo) as H.
  destruct (calcular_metricas 0%nat (estado_con tabla_ejemplo))
    as [[m|e] s'] eqn:E; [|vm_compute in E; discriminate].
  exists m, s'. split; [reflexivity|].
  destruct (H m s') as [(H1 & _ & _) _]; [reflexivity..|].
  split; [exact H1|].
  vm_compute in E. injection E as <- _. reflexivity.
Defined.

(** *** The aggregator returns *)

(** C10. On a table with at least one row whose product label is present,
    [calcular_metricas] returns without raising: both top lookups are
    defined, whatever the prices are (also when every price is NaN). *)
Theorem calcular_metricas_retorna_con_producto df s d :
  objetos s !! df = Some d ->
  (exists f p, f ∈ filas d /\ producto f = Some p) ->
  exists m s', calcular_metricas df s = (Retorna m, s').
Proof.
  intros Hd (f & p & Hf & Hp).
  assert (Hc : (p, suma_int (cantidades_del_producto d p)) ∈ serie_cantidad d).
  { apply elem_of_serie_cantidad. eauto. }
  assert (Hi : (p, Some (suma_float (ingresos_del_producto d p))) ∈ serie_ingresos d).
  { apply elem_of_serie_ingresos. eauto. }
  destruct (serie_cantidad d) as [|e l] eqn:Ec; [inversion Hc|].
  destruct (primero_float_definido (serie_ingresos d)) as (e' & l' & E').
  { apply serie_ingresos_definidos. }
  { intros Hnil. rewrite Hnil in Hi. inversion Hi. }
  destruct (calcular_metricas_retorna df s d (fst (mayor_int e l))
              (snd (mayor_int e l)) (fst (mayor_float e' l')) Hd) as [m Hm].
  - rewrite Ec. reflexivity.
  - rewrite Ec. reflexivity.
  - unfold idxmax_float. rewrite E'. reflexivity.
  - eauto.
Qed.

Lemma calcular_metricas_retorna_con_producto_witness :
  exists m s',
    calcular_metricas 0%nat (estado_con tabla_precio_nan) = (Retorna m, s').
Proof.
  apply (calcular_metricas_retorna_con_producto 0%nat
           (estado_con tabla_precio_nan) tabla_precio_nan).
  - reflexivity.
  - exists (fila_de (el_dia 2024 1 5) (Some "A"%string) 3 NaN), "A"%string.
    split; [left|reflexivity].
Defined.

Lemma sin_producto_lanza :
  filas tabla_sin_producto <> []
  /\ fst (calcular_metricas 0%nat (estado_con tabla_sin_producto))
     = Lanza ValueError.
Proof.
  split; [discriminate|]. vm_compute. reflexivity.
Qed.

(** *** Months *)

Lemma ord_mes_de_ord k : ord_mes (mes_de_ord k) = k.
Proof.
  unfold ord_mes, mes_de_ord. cbn [fst snd].
  pose proof (Z.div_mod k 12). lia.
Qed.

Lemma mes_de_ord_mes m : 1 <= snd m <= 12 -> mes_de_ord (ord_mes m) = m.
Proof.
  destruct m as [a b]. unfold ord_mes, mes_de_ord. cbn [fst snd]. intros Hb.
  assert (H1 : (12 * a + (b - 1)) / 12 = a).
  { symmetry. apply (Z.div_unique _ 12 a (b - 1)); lia. }
  assert (H2 : (12 * a + (b - 1)) mod 12 = b - 1).
  { symmetry. apply (Z.mod_unique _ 12 a (b - 1)); lia. }
  rewrite H1, H2. f_equal. lia.
Qed.

Lemma mes_de_ord_valido k : 1 <= snd (mes_de_ord k) <= 12.
Proof.
  unfold mes_de_ord. cbn [snd]. pose proof (Z.mod_pos_bound k 12). lia.
Qed.

Lemma minimo_spec o os :
  foldr Z.min o os ∈ o :: os /\ forall x, x ∈ o :: os -> foldr Z.min o os <= x.
Proof.
  induction os as [|a os [Hin Hle]]; cbn [foldr].
  - split; [left|]. intros x Hx. apply list_elem_of_singleton in Hx. lia.
  - split.
    + destruct (Z.min_spec a (foldr Z.min o os)) as [[_ ->]|[_ ->]].
      * right. left.
      * apply elem_of_cons in Hin as [->|Hin]; [left|do 2 right; exact Hin].
    + intros x Hx. apply elem_of_cons in Hx as [->|Hx].
      { specialize (Hle o (list_elem_of_here _ _)). lia. }
      apply elem_of_cons in Hx as [->|Hx]; [lia|].
      specialize (Hle x (list_elem_of_further _ _ _ Hx)). lia.
Qed.

Lemma maximo_spec o os :
  foldr Z.max o os ∈ o :: os /\ forall x, x ∈ o :: os -> x <= foldr Z.max o os.
Proof.
  induction os as [|a os [Hin Hle]]; cbn [foldr].
  - split; [left|]. intros x Hx. apply list_elem_of_singleton in Hx. lia.
  - split.
    + destruct (Z.max_spec a (foldr Z.max o os)) as [[_ ->]|[_ ->]].
      * apply elem_of_cons in Hin as [->|Hin]; [left|do 2 right; exact Hin].
      * right. left.
    + intros x Hx. apply elem_of_cons in Hx as [->|Hx].
      { specialize (Hle o (list_elem_of_here _ _)). lia. }
      apply elem_of_cons in Hx as [->|Hx]; [lia|].
      specialize (Hle x (list_elem_of_further _ _ _ Hx)). lia.
Qed.

Lemma elem_of_rango_meses os k :
  k ∈ rango_meses os <-> exists a b, a ∈ os /\ b ∈ os /\ a <= k <= b.
Proof.
  destruct os as [|o os]; cbn [rango_meses].
  - split; [intros H; inversion H|]. intros (a & _ & H & _). inversion H.
  - destruct (minimo_spec o os) as [Hmin Hle].
    destruct (maximo_spec o os) as [Hmax Hge].
    rewrite elem_of_seqZ. split.
    + intros Hk. exists (foldr Z.min o os), (foldr Z.max o os).
      split; [exact Hmin|]. split; [exact Hmax|]. lia.
    + intros (a & b & Ha & Hb & Hk).
      specialize (Hle a Ha). specialize (Hge b Hb). lia.
Qed.

Lemma NoDup_rango_meses os : NoDup (rango_meses os).
Proof.
  destruct os; cbn [rango_meses]; [constructor|apply NoDup_seqZ].
Qed.

Lemma seqZ_sorted lo n : StronglySorted Z.lt (seqZ lo n).
Proof.
  destruct (Z.le_gt_cases n 0) as [Hn|Hn].
  { rewrite seqZ_nil by exact Hn. constructor. }
  rewrite <- (Z2Nat.id n) by lia.
  generalize (Z.to_nat n) as k. clear. intros k. revert lo.
  induction k as [|k IH]; intros lo.
  - rewrite seqZ_nil by lia. constructor.
  - rewrite seqZ_cons by lia.
    replace (Z.pred (Z.of_nat (S k))) with (Z.of_nat k) by lia.
    constructor; [apply IH|].
    apply Forall_forall. intros x Hx. apply elem_of_seqZ in Hx. lia.
Qed.

Lemma rango_meses_sorted os : StronglySorted Z.lt (rango_meses os).
Proof.
  destruct os; cbn [rango_meses]; [constructor|apply seqZ_sorted].
Qed.

Lemma valores_mes_filas (fs : list Fila) k :
  (filter (fun fv : Fecha * float64 => ord_fecha (fst fv) = k)
     (zip (fecha <$> fs) (ingreso_fila <$> fs))).*2
  = ingreso_fila <$> filter (fun f => ord_fecha (fecha f) = k) fs.
Proof.
  induction fs as [|f fs IH]; [reflexivity|].
  cbn [fmap list_fmap zip zip_with]. rewrite !filter_cons. cbn [fst].
  destruct (decide (ord_fecha (fecha f) = k)); cbn; rewrite IH; reflexivity.
Qed.

Lemma serie_mensual_eq d :
  serie_mensual d
  = (fun k => (mes_de_ord k, sum_skipna (ingresos_del_mes d (mes_de_ord k))))
      <$> rango_meses (meses_de d).
Proof.
  unfold serie_mensual, resample_ME_sum, meses_de, rango_meses.
  rewrite <- list_fmap_compose.
  change (ord_fecha ∘ fecha) with (fun f => ord_fecha (fecha f)).
  destruct ((fun f => ord_fecha (fecha f)) <$> filas d) as [|o os]; [reflexivity|].
  apply list_fmap_ext. intros _ k _. f_equal. f_equal.
  rewrite ingreso_de_fmap, valores_mes_filas.
  unfold ingresos_del_mes. rewrite ord_mes_de_ord. reflexivity.
Qed.

Lemma claves_serie_mensual d :
  (serie_mensual d).*1 = mes_de_ord <$> rango_meses (meses_de d).
Proof.
  rewrite serie_mensual_eq, <- list_fmap_compose. reflexivity.
Qed.

Lemma elem_of_serie_mensual d k v :
  (k, v) ∈ serie_mensual d
  <-> k ∈ (serie_mensual d).*1 /\ v = Some (suma_float (ingresos_del_mes d k)).
Proof.
  rewrite claves_serie_mensual, serie_mensual_eq, !list_elem_of_fmap. split.
  - intros (j & [= -> ->] & Hj). split; [eauto|reflexivity].
  - intros [(j & -> & Hj) ->]. exists j. split; [reflexivity|exact Hj].
Qed.

Lemma elem_of_claves_serie_mensual d k :
  k ∈ (serie_mensual d).*1
  <-> 1 <= snd k <= 12
      /\ exists f1 f2, f1 ∈ filas d /\ f2 ∈ filas d
           /\ ord_fecha (fecha f1) <= ord_mes k <= ord_fecha (fecha f2).
Proof.
  rewrite claves_serie_mensual, list_elem_of_fmap.
  setoid_rewrite elem_of_rango_meses. unfold meses_de.
  setoid_rewrite list_elem_of_fmap. split.
  - intros (j & -> & a & b & (f1 & -> & H1) & (f2 & -> & H2) & Hj).
    split; [apply mes_de_ord_valido|]. rewrite ord_mes_de_ord. eauto 6.
  - intros (Hk & f1 & f2 & H1 & H2 & Hj). exists (ord_mes k).
    split; [symmetry; apply mes_de_ord_mes, Hk|]. eauto 10.
Qed.

(** C3 (as amended). The keys of the monthly revenue series are the months
    from the earliest to the latest transaction month, every month in
    between included whether or not it has a transaction; each
    transaction's month is among them, and the series is in chronological
    order, a month appearing once. *)
Theorem meses_de_la_serie df s d m s' :
  objetos s !! df = Some d ->
  calcular_metricas df s = (Retorna m, s') ->
  StronglySorted (fun a b : Mes => ord_mes a < ord_mes b)
    (ventas_mensuales m).*1
  /\ (forall k : Mes,
        k ∈ (ventas_mensuales m).*1
        <-> 1 <= snd k <= 12
            /\ exists f1 f2, f1 ∈ filas d /\ f2 ∈ filas d
                 /\ ord_mes (mes_de (fecha f1)) <= ord_mes k
                    <= ord_mes (mes_de (fecha f2)))
  /\ (forall f, f ∈ filas d -> 1 <= mes (fecha f) <= 12 ->
        mes_de (fecha f) ∈ (ventas_mensuales m).*1).
Proof.
  intros Hd Hm.
  apply (calcular_metricas_inv _ _ _ _ _ Hd) in Hm as (_ & _ & -> & _).
  split; [|split].
  - rewrite claves_serie_mensual.
    apply (StronglySorted_fmap _ Z.lt); [|apply rango_meses_sorted].
    intros x y Hxy. rewrite !ord_mes_de_ord. exact Hxy.
  - intros k. apply elem_of_claves_serie_mensual.
  - intros f Hf Hv. apply elem_of_claves_serie_mensual.
    split; [exact Hv|]. exists f, f. unfold ord_fecha. repeat split; trivial; lia.
Qed.

Lemma meses_de_la_serie_witness :
  exists m s',
    calcular_metricas 0%nat (estado_con tabla_con_hueco) = (Retorna m, s')
    /\ (2024, 3) ∈ (ventas_mensuales m).*1.
Proof.
  pose proof (meses_de_la_serie 0%nat (estado_con tabla_con_hueco)
                tabla_con_hueco) as H.
  destruct (calcular_metricas 0%nat (estado_con tabla_con_hueco))
    as [[m|e] s'] eqn:E; [|vm_compute in E; discriminate].
  exists m, s'. split; [reflexivity|].
  destruct (H m s') as (_ & _ & H3); [reflexivity..|].
  apply (H3 (fila_de (el_dia 2024 3 9) (Some "A"%string) 1 (Some (Qc_of_Z 10)))).
  - right. left.
  - cbn. lia.
Defined.

(** February 2024 is a key of the series although no transaction of the
    table falls in it. *)
Lemma mes_sin_transacciones_en_la_serie :
  exists m s',
    calcular_metricas 0%nat (estado_con tabla_con_hueco) = (Retorna m, s')
    /\ (ventas_mensuales m).*1 = [(2024, 1); (2024, 2); (2024, 3)]
    /\ ~ (forall k : Mes,
            k ∈ (ventas_mensuales m).*1
            <-> exists f, f ∈ filas tabla_con_hueco /\ mes_de (fecha f) = k).
Proof.
  destruct (calcular_metricas 0%nat (estado_con tabla_con_hueco))
    as [[m|e] s'] eqn:E; [|vm_compute in E; discriminate].
  exists m, s'. split; [reflexivity|].
  assert (Hk : (ventas_mensuales m).*1 = [(2024, 1); (2024, 2); (2024, 3)]).
  { vm_compute in E. injection E as <- _. reflexivity. }
  split; [exact Hk|]. rewrite Hk. intros H.
  destruct (proj1 (H (2024, 2))) as (f & Hf & Hmes); [right; left|].
  cbn in Hf. apply elem_of_cons in Hf as [->|Hf]; [discriminate|].
  apply list_elem_of_singleton in Hf as ->. discriminate.
Qed.

(** *** Sums by month and over the table *)

Section SumaPorClaves.
Context {A : Type} (clave : A -> Z) (valor : A -> float64).

Lemma suma_ceros (ks : list Z) :
  suma_float ((fun _ => Some 0%Qc) <$> ks) = 0%Qc.
Proof.
  induction ks as [|k ks IH]; [reflexivity|].
  cbn. rewrite IH. apply Qcplus_0_l.
Qed.

Lemma suma_de_clave_cons a l k :
  suma_de_clave clave valor (a :: l) k
  = match valor a with
    | Some q => if decide (clave a = k) then (q + suma_de_clave clave valor l k)%Qc
                else suma_de_clave clave valor l k
    | None => suma_de_clave clave valor l k
    end.
Proof.
  unfold suma_de_clave. rewrite filter_cons.
  destruct (decide (clave a = k)); cbn; destruct (valor a); reflexivity.
Qed.

Lemma suma_sin_clave k0 q (h : Z -> Qc) (ks : list Z) :
  k0 ∉ ks ->
  suma_float ((fun k => Some (if decide (k0 = k) then (q + h k)%Qc else h k)) <$> ks)
  = suma_float ((fun k => Some (h k)) <$> ks).
Proof.
  induction ks as [|k ks IH]; [reflexivity|].
  intros Hk. apply not_elem_of_cons in Hk as [Hne Hk].
  cbn. rewrite (IH Hk). destruct (decide (k0 = k)); [contradiction|reflexivity].
Qed.

Lemma suma_con_clave k0 q (h : Z -> Qc) (ks : list Z) :
  NoDup ks -> k0 ∈ ks ->
  suma_float ((fun k => Some (if decide (k0 = k) then (q + h k)%Qc else h k)) <$> ks)
  = (q + suma_float ((fun k => Some (h k)) <$> ks))%Qc.
Proof.
  induction 1 as [|k ks Hk Hnd IH]; [intros H; inversion H|].
  intros Hin. cbn. destruct (decide (k0 = k)) as [->|Hne].
  - rewrite (suma_sin_clave _ _ _ _ Hk). ring.
  - apply elem_of_cons in Hin as [Heq|Hin]; [contradiction|].
    rewrite (IH Hin). ring.
Qed.

(** Summing the sums of the keys gives the sum of the whole list, when
    every key of the list is counted once. *)
Lemma suma_por_claves (l : list A) (ks : list Z) :
  NoDup ks -> (forall a, a ∈ l -> clave a ∈ ks) ->
  suma_float ((fun k => Some (suma_de_clave clave valor l k)) <$> ks)
  = suma_float (valor <$> l).
Proof.
  intros Hnd. induction l as [|a l IH]; intros Hks.
  - cbn. apply suma_ceros.
  - assert (IH' := IH (fun x Hx => Hks x (list_elem_of_further _ _ _ Hx))).
    rewrite (list_fmap_ext _
      (fun k => Some (match valor a with
                      | Some q => if decide (clave a = k)
                                  then (q + suma_de_clave clave valor l k)%Qc
                                  else suma_de_clave clave valor l k
                      | None => suma_de_clave clave valor l k
                      end)) ks)
      by (intros _ k _; rewrite suma_de_clave_cons; reflexivity).
    cbn [fmap list_fmap]. destruct (valor a) as [q|]; cbn [suma_float].
    + rewrite (suma_con_clave (clave a) q (suma_de_clave clave valor l) ks Hnd
                 (Hks a (list_elem_of_here _ _))).
      rewrite IH'. reflexivity.
    + exact IH'.
Qed.
End SumaPorClaves.

Lemma suma_serie_mensual d :
  suma_float (serie_mensual d).*2 = suma_float (ingreso_de d).
Proof.
  rewrite serie_mensual_eq, <- list_fmap_compose, ingreso_de_fmap.
  rewrite <- (suma_por_claves (fun f => ord_fecha (fecha f)) ingreso_fila
                (filas d) (rango_meses (meses_de d))).
  - f_equal. apply list_fmap_ext. intros _ k _. cbn.
    unfold sum_skipna, ingresos_del_mes, suma_de_clave.
    rewrite ord_mes_de_ord. reflexivity.
  - apply NoDup_rango_meses.
  - intros f Hf. apply elem_of_rango_meses.
    exists (ord_fecha (fecha f)), (ord_fecha (fecha f)).
    unfold meses_de. rewrite list_elem_of_fmap.
    split; [eauto|]. split; [eauto|lia].
Qed.

Lemma Qc_of_Z_plus a b : Qc_of_Z (a + b) = (Qc_of_Z a + Qc_of_Z b)%Qc.
Proof.
  apply Qc_is_canon. unfold Qc_of_Z, Qcplus. cbn [this Q2Qc].
  rewrite !Qred_correct. rewrite inject_Z_plus. reflexivity.
Qed.

Lemma Qc_of_Z_mult a b : Qc_of_Z (a * b) = (Qc_of_Z a * Qc_of_Z b)%Qc.
Proof.
  apply Qc_is_canon. unfold Qc_of_Z, Qcmult. cbn [this Q2Qc].
  rewrite !Qred_correct. rewrite inject_Z_mult. reflexivity.
Qed.

Lemma Qc_of_Z_no_nulo a : a <> 0 -> Qc_of_Z a <> Q2Qc 0.
Proof.
  intros Ha H. apply (f_equal this) in H. unfold Qc_of_Z in H. cbn in H.
  injection H as H. contradiction.
Qed.

(** A price that is a multiple of [2^-k] is a whole number of such units,
    and so is the sum of the revenues of rows with such prices. *)
Lemma precio_en_unidades (k : Z) (q : Qc) :
  0 <= k -> 2 ^ k mod Zpos (Qden q) = 0 ->
  q = (Qc_of_Z (Qnum q * (2 ^ k / Zpos (Qden q))) / Qc_of_Z (2 ^ k))%Qc.
Proof.
  intros Hk Hdiv.
  assert (H2 : 2 ^ k <> 0) by (apply Z.pow_nonzero; lia).
  assert (Hq : q = (Qc_of_Z (Qnum q) / Qc_of_Z (Zpos (Qden q)))%Qc).
  { apply Qc_is_canon. unfold Qc_of_Z, Qcdiv, Qcmult, Qcinv. cbn [this Q2Qc].
    rewrite !Qred_correct. destruct q as [[n d] Hc]. cbn [this Qnum Qden].
    rewrite (Qmake_Qdiv n d). reflexivity. }
  apply Z.div_exact in Hdiv; [|lia].
  set (m := 2 ^ k / Zpos (Qden q)) in *.
  assert (Hm : m <> 0) by (intros E; rewrite E in Hdiv; lia).
  rewrite Hq at 1. rewrite Hdiv, !Qc_of_Z_mult.
  field. split; apply Qc_of_Z_no_nulo; [exact Hm|lia].
Qed.

Lemma suma_en_unidades k (fs : list Fila) :
  0 <= k ->
  forallb (en_escala k) fs = true ->
  suma_float (ingreso_fila <$> fs)
  = (Qc_of_Z (suma_int (unidades_fila k <$> fs)) / Qc_of_Z (2 ^ k))%Qc.
Proof.
  intros Hk.
  assert (H2 : Qc_of_Z (2 ^ k) <> Q2Qc 0)
    by (apply Qc_of_Z_no_nulo, Z.pow_nonzero; lia).
  induction fs as [|f fs IH]; intros Hfs.
  - cbn [fmap list_fmap suma_float suma_int].
    replace (Qc_of_Z 0) with (Q2Qc 0) by (apply Qc_is_canon; reflexivity).
    field. exact H2.
  - cbn [forallb] in Hfs. apply andb_true_iff in Hfs as [Hf Hfs].
    cbn [fmap list_fmap suma_int].
    unfold ingreso_fila at 1, mul_int_float, unidades_fila at 1.
    unfold en_escala in Hf.
    destruct (precio f) as [q|]; cbn [suma_float]; rewrite (IH Hfs).
    + apply Z.eqb_eq in Hf.
      rewrite (precio_en_unidades k q Hk Hf) at 1.
      rewrite Qc_of_Z_plus, !Qc_of_Z_mult.
      field. exact H2.
    + rewrite Z.add_0_l. reflexivity.
Qed.

Lemma suma_int_abs (l : list Z) : Z.abs (suma_int l) <= suma_int (Z.abs <$> l).
Proof.
  induction l as [|z l IH]; cbn; lia.
Qed.

Lemma sumas_exactas_inv k d :
  sumas_exactas k d = true ->
  0 <= k
  /\ forallb (en_escala k) (filas d) = true
  /\ Z.abs (total_unidades k d) < 2 ^ 53.
Proof.
  unfold sumas_exactas. rewrite !andb_true_iff.
  intros [[[Hk _] Hdiv] Hsum]. apply Z.leb_le in Hk. apply Z.ltb_lt in Hsum.
  split; [exact Hk|]. split; [exact Hdiv|].
  eapply Z.le_lt_trans; [apply suma_int_abs|exact Hsum].
Qed.

(** C2 (as amended). On a table whose rows all have a date, whose prices
    are multiples of one unit [2^-k] and whose absolute revenues add up to
    less than [2^53] units (for instance whole-number prices and a total
    below [2^53]), no product and no sum of the program rounds, and the sum
    of the entries of the monthly revenue series equals the sum of the
    revenue column (quantity times price, row by row) over the whole table,
    both sums taken as pandas takes them, skipping NaN: both are the total
    number of units times [2^-k], a binary64 number. *)
Theorem suma_mensual_igual_suma_total k df s d m s' :
  objetos s !! df = Some d ->
  calcular_metricas df s = (Retorna m, s') ->
  sumas_exactas k d = true ->
  sum_skipna (ventas_mensuales m).*2
  = sum_skipna (zip_with mul_int_float (cantidad <$> filas d) (precio <$> filas d))
  /\ sum_skipna (ventas_mensuales m).*2
     = Some (Qc_of_Z (total_unidades k d) / Qc_of_Z (2 ^ k))%Qc
  /\ Z.abs (total_unidades k d) < 2 ^ 53.
Proof.
  intros Hd Hm Hex.
  apply (calcular_metricas_inv _ _ _ _ _ Hd) in Hm as (_ & _ & -> & _).
  apply sumas_exactas_inv in Hex as (Hk & Hdiv & Hsum).
  unfold sum_skipna. rewrite suma_serie_mensual.
  split; [reflexivity|]. split; [|exact Hsum].
  f_equal. rewrite ingreso_de_fmap. apply (suma_en_unidades k _ Hk Hdiv).
Qed.

(** Prices 2.5 and 0.75 are multiples of a quarter: the revenues 7.5 and 3
    are 30 and 12 quarters, and both totals are 42 quarters, 10.5. *)
Lemma suma_mensual_igual_suma_total_witness :
  exists m s',
    calcular_metricas 0%nat (estado_con tabla_fracciones) = (Retorna m, s')
    /\ sumas_exactas 2 tabla_fracciones = true
    /\ total_unidades 2 tabla_fracciones = 42
    /\ sum_skipna (ventas_mensuales m).*2 = Some (Qc_of_Z 42 / Qc_of_Z (2 ^ 2))%Qc
    /\ sum_skipna (ventas_mensuales m).*2
       = sum_skipna (zip_with mul_int_float (cantidad <$> filas tabla_fracciones)
                       (precio <$> filas tabla_fracciones)).
Proof.
  pose proof (suma_mensual_igual_suma_total 2 0%nat (estado_con tabla_fracciones)
                tabla_fracciones) as H.
  destruct (calcular_metricas 0%nat (estado_con tabla_fracciones))
    as [[m|e] s'] eqn:E; [|vm_compute in E; discriminate].
  exists m, s'. split; [reflexivity|]. split; [reflexivity|].
  split; [reflexivity|].
  destruct (H m s') as (H1 & H2 & _); [reflexivity..|].
  split; [exact H2|exact H1].
Defined.

(** With the decimal prices 0.1, 0.2 and 0.3, which are no multiples of a
    power of two, the additions round.  In binary64 the revenue column is
    0.1, 0.2, 0.3; the monthly series is 0.1 for January and 0.5 for
    February, whether the bins are added with compensation or without; the
    monthly series sums to 0.6, the revenue column to the next binary64
    number, 0.6000000000000001. *)
Lemma suma_mensual_distinta_en_binary64 :
  producto_exacto 1 (Q2Qc (1 # 10)) = false
  /\ ingreso_b64 tabla_decimales
     = [b64_de_fraccion 1 10; b64_de_fraccion 2 10; b64_de_fraccion 3 10]
  /\ serie_mensual_b64 sum_kahan_b64 tabla_decimales
     = [((2024, 1), b64_de_fraccion 1 10); ((2024, 2), b64_de_fraccion 5 10)]
  /\ serie_mensual_b64 sum_b64 tabla_decimales
     = serie_mensual_b64 sum_kahan_b64 tabla_decimales
  /\ sum_b64 (serie_mensual_b64 sum_kahan_b64 tabla_decimales).*2
     = S754_finite false 5404319552844595 (-53)
  /\ sum_b64 (ingreso_b64 tabla_decimales)
     = S754_finite false 5404319552844596 (-53)
  /\ sum_b64 (serie_mensual_b64 sum_kahan_b64 tabla_decimales).*2
     <> sum_b64 (ingreso_b64 tabla_decimales).
Proof.
  repeat split; try (vm_compute; reflexivity).
  vm_compute. discriminate.
Qed.

(** *** Undefined prices *)




(** *** The loader *)

Lemma faltantes_no_vacio cols req :
  req ∈ requeridas -> contiene cols req = false -> faltantes cols <> [].
Proof.
  intros Hreq Hc Hnil.
  assert (Hin : In req (faltantes cols)).
  { unfold faltantes. apply filter_In. split.
    - apply list_elem_of_In. exact Hreq.
    - rewrite Hc. reflexivity. }
  rewrite Hnil in Hin. exact Hin.
Qed.

Lemma cargar_csv_rechaza a s :
  carga_rechazada a -> cargar_csv a s = (Lanza (SystemExit 1), s).
Proof.
  intros [->|[(c & e & -> & Hc)|(enc & crudas & req & -> & Hreq & Hcol)]].
  - reflexivity.
  - unfold cargar_csv. rewrite Hc. reflexivity.
  - unfold cargar_csv. destruct (read_csv (Tabular enc crudas)) as [[enc' cr']|e] eqn:E;
      [|reflexivity].
    cbn in E. destruct (contiene enc "fecha"); [|discriminate].
    injection E as <- <-.
    pose proof (faltantes_no_vacio _ _ Hreq Hcol) as Hf.
    destruct (faltantes (normalizar <$> enc)); [congruence|reflexivity].
Qed.

Lemma contiene_true cols c : contiene cols c = true <-> c ∈ cols.
Proof.
  unfold contiene. rewrite existsb_exists, list_elem_of_In. split.
  - intros (x & Hx & Heq). apply String.eqb_eq in Heq. subst x. exact Hx.
  - intros Hc. exists c. split; [exact Hc|apply String.eqb_refl].
Qed.

Lemma faltantes_nil_iff cols :
  faltantes cols = [] <-> forall req, req ∈ requeridas -> contiene cols req = true.
Proof.
  split.
  - intros Hnil req Hreq. destruct (contiene cols req) eqn:E; [reflexivity|].
    destruct (faltantes_no_vacio _ _ Hreq E Hnil).
  - intros H. unfold faltantes, requeridas in *. cbn [List.filter].
    rewrite !H; [reflexivity|..]; repeat first [left | right].
Qed.

Lemma encabezado_aceptado_iff enc :
  encabezado_aceptado enc = true
  <-> contiene enc "fecha" = true /\ faltantes (normalizar <$> enc) = [].
Proof.
  unfold encabezado_aceptado. rewrite andb_true_iff, forallb_forall, faltantes_nil_iff.
  split; intros [H1 H2]; (split; [exact H1|]); intros req Hreq; apply H2.
  - apply list_elem_of_In, Hreq.
  - apply list_elem_of_In, Hreq.
Qed.

Lemma cantidades_finitas_iff (crudas : list FilaCruda) :
  forallb cantidad_finita crudas = true
  <-> forall c b, c ∈ crudas -> cr_cantidad c <> Infinita b.
Proof.
  rewrite forallb_forall. split.
  - intros H c b Hc Hb. apply list_elem_of_In, H in Hc.
    unfold cantidad_finita in Hc. rewrite Hb in Hc. discriminate.
  - intros H c Hc. apply list_elem_of_In in Hc. unfold cantidad_finita.
    destruct (cr_cantidad c) as [c'|b] eqn:E; [reflexivity|].
    destruct (H c b Hc E).
Qed.

Lemma cantidad_infinita_iff (crudas : list FilaCruda) :
  forallb cantidad_finita crudas = false
  <-> exists c b, c ∈ crudas /\ cr_cantidad c = Infinita b.
Proof.
  split.
  - induction crudas as [|c l IH]; [discriminate|].
    cbn [forallb]. intros H. apply andb_false_iff in H as [H|H].
    + unfold cantidad_finita in H.
      destruct (cr_cantidad c) as [c'|b] eqn:E; [discriminate|].
      exists c, b. split; [left|exact E].
    + destruct (IH H) as (c' & b & Hc & Hb).
      exists c', b. split; [right; exact Hc|exact Hb].
  - intros (c & b & Hc & Hb).
    destruct (forallb cantidad_finita crudas) eqn:E; [|reflexivity].
    destruct (proj1 (cantidades_finitas_iff crudas) E c b Hc Hb).
Qed.

(** The cast of the quantity column: it fails as a whole when one cell is
    an infinity, and returns one integer per row otherwise. *)
Lemma coercer_cantidad_eq (crudas : list FilaCruda) :
  coercer_cantidad (cr_cantidad <$> crudas)
  = if forallb cantidad_finita crudas
    then Retorna (cantidad_de_celda <$> (cr_cantidad <$> crudas))
    else Lanza IntCastingNaNError.
Proof.
  unfold coercer_cantidad. induction crudas as [|c l IH]; [reflexivity|].
  cbn [fmap list_fmap res_mapM forallb]. rewrite IH.
  destruct (forallb cantidad_finita l);
    unfold cantidad_finita, cantidad_de_celda;
    destruct (cr_cantidad c) as [[q| |]|b]; reflexivity.
Qed.

Lemma zip_filas_cargadas crudas :
  zip_with armar_fila crudas
    (zip (cantidad_de_celda <$> (cr_cantidad <$> crudas))
         (to_numeric <$> (cr_precio <$> crudas)))
  = fila_cargada <$> crudas.
Proof.
  induction crudas as [|c crudas IH]; [reflexivity|].
  cbn. f_equal. exact IH.
Qed.

(** What the loader does on a file whose header passes. *)
Lemma cargar_csv_acepta enc crudas s :
  encabezado_aceptado enc = true ->
  forallb cantidad_finita crudas = true ->
  cargar_csv (Existe (Tabular enc crudas)) s
  = (Retorna (copia_de s),
     {| objetos := <[copia_de s := tabla_de (fila_cargada <$> crudas)]> (objetos s);
        escritos := escritos s |}).
Proof.
  intros H Hfin. apply encabezado_aceptado_iff in H as [Hfecha Hfalt].
  unfold cargar_csv. cbn [read_csv]. rewrite Hfecha, Hfalt.
  unfold mbind, M_bind, ligar, elevar. rewrite coercer_cantidad_eq, Hfin.
  unfold nuevo, copia_de, tabla_de. rewrite zip_filas_cargadas. reflexivity.
Qed.

Lemma cargar_csv_infinita enc crudas s :
  encabezado_aceptado enc = true ->
  forallb cantidad_finita crudas = false ->
  cargar_csv (Existe (Tabular enc crudas)) s = (Lanza IntCastingNaNError, s).
Proof.
  intros H Hfin. apply encabezado_aceptado_iff in H as [Hfecha Hfalt].
  unfold cargar_csv. cbn [read_csv]. rewrite Hfecha, Hfalt.
  unfold mbind, M_bind, ligar, elevar. rewrite coercer_cantidad_eq, Hfin.
  reflexivity.
Qed.

Lemma cargar_csv_no_acepta enc crudas s :
  encabezado_aceptado enc = false ->
  cargar_csv (Existe (Tabular enc crudas)) s = (Lanza (SystemExit 1), s).
Proof.
  intros H. unfold cargar_csv. cbn [read_csv].
  destruct (contiene enc "fecha") eqn:Hfecha; [|reflexivity].
  destruct (faltantes (normalizar <$> enc)) eqn:Hfalt; [|reflexivity].
  assert (encabezado_aceptado enc = true) by (apply encabezado_aceptado_iff; auto).
  congruence.
Qed.

(** The quantity that the loader stores for each kind of cell. *)
Lemma cantidad_de_celda_numero (q : Qc) :
  int64_min <= Z.quot (Qnum q) (Zpos (Qden q)) <= int64_max ->
  cantidad_de_celda (Finita (Numero q)) = Z.quot (Qnum q) (Zpos (Qden q)).
Proof.
  intros [H1 H2]. unfold cantidad_de_celda.
  cbn [to_numeric_cantidad to_numeric fillna0_inf fillna0 astype_int].
  apply Z.leb_le in H1, H2. rewrite H1, H2. reflexivity.
Qed.





(** *** Rejected inputs *)

(** C6. When the loader rejects its input (no file, a file that cannot be
    read as CSV, or a required column such as ["precio"] missing after
    normalisation), the process ends with exit status 1 and has created
    none of [ventas_por_mes.png], [ventas_top5_productos.png] and
    [informe.txt]. *)
Theorem carga_rechazada_sin_archivos a :
  carga_rechazada a ->
  estado_salida (ejecutar a) = 1
  /\ archivos_creados (ejecutar a) = []
  /\ ("ventas_por_mes.png"%string ∉ archivos_creados (ejecutar a))
  /\ ("ventas_top5_productos.png"%string ∉ archivos_creados (ejecutar a))
  /\ ("informe.txt"%string ∉ archivos_creados (ejecutar a)).
Proof.
  intros H. unfold ejecutar, main, mbind, M_bind, ligar.
  rewrite (cargar_csv_rechaza _ _ H). cbn.
  repeat split; apply not_elem_of_nil.
Qed.

Lemma carga_rechazada_sin_archivos_witness :
  estado_salida (ejecutar archivo_sin_precio) = 1
  /\ archivos_creados (ejecutar archivo_sin_precio) = [].
Proof.
  destruct (carga_rechazada_sin_archivos archivo_sin_precio) as (H1 & H2 & _).
  - right. right.
    exists ["fecha"; "producto"; "cantidad"]%string,
      [ cruda_de (el_dia 2024 1 5) (Some "A"%string) (Numero (Qc_of_Z 3)) Vacia ],
      "precio"%string.
    split; [reflexivity|]. split; [|reflexivity].
    do 3 right. left.
  - split; [exact H1|exact H2].
Defined.

(** *** The worked example of the specification *)

(** January sums to 80 and February to 20; A sold 5 and B sold 1; the top by
    quantity is A with 5; A and B both earned 50. *)
Example metricas_de_tabla_ejemplo :
  exists m s',
    calcular_metricas 0%nat (estado_con tabla_ejemplo) = (Retorna m, s')
    /\ (prod_map id (option_map this) <$> ventas_mensuales m)
       = [((2024, 1), Some (80 # 1)%Q); ((2024, 2), Some (20 # 1)%Q)]
    /\ cant_por_producto m = [("A"%string, 5); ("B"%string, 1)]
    /\ (prod_map id (option_map this) <$> ingresos_por_producto m)
       = [("A"%string, Some (50 # 1)%Q); ("B"%string, Some (50 # 1)%Q)]
    /\ (producto_mas_vendido m, cantidad_max m) = ("A"%string, 5).
Proof.
  destruct (calcular_metricas 0%nat (estado_con tabla_ejemplo))
    as [[m|e] s'] eqn:E; [|vm_compute in E; discriminate].
  exists m, s'. split; [reflexivity|].
  vm_compute in E. injection E as <- _. repeat split.
Qed.

(** A run on a file that is accepted writes the three files and ends with
    status 0. *)
Example ejecutar_archivo_cantidades :
  ejecutar archivo_cantidades
  = {| estado_salida := 0;
       archivos_creados :=
         ["ventas_por_mes.png"; "ventas_top5_productos.png"; "informe.txt"]%string |}.
Proof. vm_compute. reflexivity. Qed.

(** ** Further properties of the loader *)

(** X1. For a file that reads as delimited text and whose column names are
    distinct once normalised, the loader returns a table exactly when a
    column is headed ["fecha"] as written, the normalised names include the
    four required names, and no quantity cell reads as an infinity; no other
    cell of the file plays a part in it. *)
Theorem cargar_csv_retorna_iff enc crudas s :
  NoDup (normalizar <$> enc) ->
  (exists r s', cargar_csv (Existe (Tabular enc crudas)) s = (Retorna r, s'))
  <-> contiene enc "fecha" = true
      /\ (forall req, req ∈ requeridas ->
            contiene (normalizar <$> enc) req = true)
      /\ (forall c b, c ∈ crudas -> cr_cantidad c <> Infinita b).
Proof.
  intros _. split.
  - intros (r & s' & H).
    destruct (encabezado_aceptado enc) eqn:E.
    + pose proof E as E'. apply encabezado_aceptado_iff in E' as [E1 E2].
      split; [exact E1|]. split; [apply faltantes_nil_iff, E2|].
      apply cantidades_finitas_iff.
      destruct (forallb cantidad_finita crudas) eqn:Hfin; [reflexivity|].
      rewrite (cargar_csv_infinita _ _ _ E Hfin) in H. discriminate.
    + rewrite (cargar_csv_no_acepta _ _ _ E) in H. discriminate.
  - intros (Hfecha & Hreq & Hfin).
    rewrite cargar_csv_acepta; [eauto| |].
    + apply encabezado_aceptado_iff. split; [exact Hfecha|].
      apply faltantes_nil_iff, Hreq.
    + apply cantidades_finitas_iff, Hfin.
Qed.

Lemma cargar_csv_retorna_iff_witness :
  (exists r s', cargar_csv archivo_encabezado_sucio estado_inicial = (Retorna r, s'))
  /\ ~ (exists r s',
          cargar_csv archivo_cantidad_infinita estado_inicial = (Retorna r, s')).
Proof.
  split.
  - apply (cargar_csv_retorna_iff
             ["fecha"; " Producto "; "CANTIDAD"; "Precio!"; "Vendedor"]%string).
    + apply (bool_decide_unpack _). vm_compute. exact I.
    + split; [reflexivity|]. split.
      * intros req Hreq. apply contiene_true.
        unfold requeridas in Hreq.
        repeat (apply elem_of_cons in Hreq as [->|Hreq];
                [vm_compute; repeat first [left | right]|]).
        inversion Hreq.
      * intros c b Hc Hb.
        repeat (apply elem_of_cons in Hc as [->|Hc]; [discriminate|]).
        inversion Hc.
  - intros H.
    apply (cargar_csv_retorna_iff encabezados_ejemplo) in H.
    + destruct H as (_ & _ & H).
      apply (H {| cr_fecha := el_dia 2024 1 6; cr_producto := Some "B"%string;
                  cr_cantidad := Infinita false;
                  cr_precio := Numero (Qc_of_Z 50) |} false).
      * right. left.
      * reflexivity.
    + apply (bool_decide_unpack _). vm_compute. exact I.
Defined.

(** X2. The date column has to be headed ["fecha"] as written in the file:
    [read_csv] looks for it before the names are normalised, so a file
    without that exact name is rejected with [SystemExit(1)], the store
    untouched, whatever its names normalise to. *)
Theorem fecha_no_se_normaliza enc crudas s :
  contiene enc "fecha" = false ->
  cargar_csv (Existe (Tabular enc crudas)) s = (Lanza (SystemExit 1), s).
Proof.
  intros H. apply cargar_csv_no_acepta. unfold encabezado_aceptado.
  rewrite H. reflexivity.
Qed.

Lemma fecha_no_se_normaliza_witness :
  faltantes (normalizar <$> ["Fecha"; "producto"; "cantidad"; "precio"]%string) = []
  /\ cargar_csv archivo_fecha_mayuscula estado_inicial
     = (Lanza (SystemExit 1), estado_inicial).
Proof.
  split; [reflexivity|].
  apply (fecha_no_se_normaliza ["Fecha"; "producto"; "cantidad"; "precio"]%string).
  reflexivity.
Defined.



(** *** Normalised names *)








(** *** The rows of the loaded table *)

Lemma cargar_csv_retorna_inv enc crudas s r s' :
  cargar_csv (Existe (Tabular enc crudas)) s = (Retorna r, s') ->
  encabezado_aceptado enc = true
  /\ forallb cantidad_finita crudas = true
  /\ r = copia_de s
  /\ s' = {| objetos := <[copia_de s := tabla_de (fila_cargada <$> crudas)]> (objetos s);
             escritos := escritos s |}.
Proof.
  intros H. destruct (encabezado_aceptado enc) eqn:E.
  - destruct (forallb cantidad_finita crudas) eqn:Hfin.
    + rewrite (cargar_csv_acepta _ _ _ E Hfin) in H. injection H as <- <-. auto.
    + rewrite (cargar_csv_infinita _ _ _ E Hfin) in H. discriminate.
  - rewrite (cargar_csv_no_acepta _ _ _ E) in H. discriminate.
Qed.

Lemma cargar_csv_tabla enc crudas s r s' :
  cargar_csv (Existe (Tabular enc crudas)) s = (Retorna r, s') ->
  objetos s' !! r = Some (tabla_de (fila_cargada <$> crudas)).
Proof.
  intros H. apply cargar_csv_retorna_inv in H as (_ & _ & -> & ->).
  apply lookup_insert_eq.
Qed.

(** X5. The price column of the table loaded from a file whose column names
    are distinct once normalised: a numeric cell keeps its value, a
    non-numeric or an empty cell becomes NaN, and no row is dropped or
    reordered. *)
Theorem precio_coercionado enc crudas s r s' :
  NoDup (normalizar <$> enc) ->
  cargar_csv (Existe (Tabular enc crudas)) s = (Retorna r, s') ->
  exists d,
    objetos s' !! r = Some d
    /\ length (filas d) = length crudas
    /\ forall i c, crudas !! i = Some c ->
         exists f, filas d !! i = Some f
           /\ fecha f = cr_fecha c /\ producto f = cr_producto c
           /\ (forall q, cr_precio c = Numero q -> precio f = Some q)
           /\ (forall t, cr_precio c = Texto t -> precio f = NaN)
           /\ (cr_precio c = Vacia -> precio f = NaN).
Proof.
  intros _ H. exists (tabla_de (fila_cargada <$> crudas)).
  split; [apply (cargar_csv_tabla _ _ _ _ _ H)|].
  cbn [tabla_de filas]. split; [apply length_fmap|].
  intros i c Hc. exists (fila_cargada c).
  split; [rewrite list_lookup_fmap, Hc; reflexivity|].
  unfold fila_cargada, armar_fila. cbn [fecha producto precio snd].
  split; [reflexivity|]. split; [reflexivity|].
  repeat split; intros; match goal with H : cr_precio c = _ |- _ => rewrite H end;
    reflexivity.
Qed.

Lemma precio_coercionado_witness :
  exists d,
    objetos (snd (cargar_csv archivo_encabezado_sucio estado_inicial)) !! 0%nat
    = Some d
    /\ (precio <$> filas d) = [Some (Qc_of_Z 10); NaN].
Proof.
  destruct (precio_coercionado
              ["fecha"; " Producto "; "CANTIDAD"; "Precio!"; "Vendedor"]%string
              [ cruda_de (el_dia 2024 1 5) (Some "A"%string) (Numero (Qc_of_Z 3)) (Numero (Qc_of_Z 10));
                cruda_de (el_dia 2024 1 7) (Some "B"%string) (Numero (Q2Qc (5 # 2))) (Texto "n/d") ]
              estado_inicial 0%nat
              (snd (cargar_csv archivo_encabezado_sucio estado_inicial)))
    as (d & Hd & _ & Hfilas).
  { apply (bool_decide_unpack _). vm_compute. exact I. }
  { vm_compute. reflexivity. }
  exists d. split; [exact Hd|].
  vm_compute in Hd. injection Hd as <-. reflexivity.
Defined.

Lemma truncar_no_negativo (q : Qc) :
  (0 <= q)%Qc ->
  0 <= Z.quot (Qnum q) (Zpos (Qden q))
  /\ (inject_Z (Z.quot (Qnum q) (Zpos (Qden q))) <= q)%Q
  /\ (q < inject_Z (Z.quot (Qnum q) (Zpos (Qden q)) + 1))%Q.
Proof.
  intros Hq. destruct q as [[n d] Hc].
  unfold Qcle, Qle in Hq. cbn in Hq. cbn [this Qnum Qden].
  change (Qred (0 # 1)) with (0 # 1)%Q in Hq. cbn in Hq.
  assert (Hn : 0 <= n) by lia.
  rewrite Z.quot_div_nonneg by lia.
  pose proof (Z.div_pos n (Zpos d) Hn ltac:(lia)) as H0.
  pose proof (Z.mul_div_le n (Zpos d) ltac:(lia)) as H1.
  pose proof (Z.mul_succ_div_gt n (Zpos d) ltac:(lia)) as H2.
  split; [exact H0|]. unfold Qle, Qlt. cbn. split; lia.
Qed.

(** X6. When the column names are distinct once normalised and every
    numeric quantity cell of the file holds a number from 0 to below 2^63,
    every quantity of the loaded table is at least 0, and the quantity
    loaded for a number [q] is its integer part: it is at most [q], and [q]
    is less than the next integer. *)
Theorem cantidades_no_negativas enc crudas s r s' :
  NoDup (normalizar <$> enc) ->
  cargar_csv (Existe (Tabular enc crudas)) s = (Retorna r, s') ->
  (forall c q, c ∈ crudas -> cr_cantidad c = Finita (Numero q) ->
     (0 <= q)%Qc /\ (q < inject_Z (2 ^ 63))%Q) ->
  exists d,
    objetos s' !! r = Some d
    /\ Forall (fun f => 0 <= cantidad f) (filas d)
    /\ forall i c q, crudas !! i = Some c -> cr_cantidad c = Finita (Numero q) ->
         exists f, filas d !! i = Some f
           /\ (inject_Z (cantidad f) <= q)%Q
           /\ (q < inject_Z (cantidad f + 1))%Q.
Proof.
  intros _ H Hpos.
  assert (Hnum : forall c q, c ∈ crudas -> cr_cantidad c = Finita (Numero q) ->
            cantidad_de_celda (cr_cantidad c) = Z.quot (Qnum q) (Zpos (Qden q))
            /\ 0 <= Z.quot (Qnum q) (Zpos (Qden q))
            /\ (inject_Z (Z.quot (Qnum q) (Zpos (Qden q))) <= q)%Q
            /\ (q < inject_Z (Z.quot (Qnum q) (Zpos (Qden q)) + 1))%Q).
  { intros c q Hc Hq. destruct (Hpos c q Hc Hq) as [H0 Hmax].
    destruct (truncar_no_negativo q H0) as (Ht0 & Ht1 & Ht2).
    split; [|auto]. rewrite Hq. apply cantidad_de_celda_numero.
    split; [unfold int64_min; lia|].
    pose proof (Qle_lt_trans _ _ _ Ht1 Hmax) as Hlt.
    rewrite <- Zlt_Qlt in Hlt. unfold int64_max. lia. }
  exists (tabla_de (fila_cargada <$> crudas)).
  split; [apply (cargar_csv_tabla _ _ _ _ _ H)|]. cbn [tabla_de filas]. split.
  - apply Forall_fmap, Forall_forall. intros c Hc.
    unfold fila_cargada, armar_fila. cbn [cantidad fst compose].
    destruct (cr_cantidad c) as [[q| |]|b] eqn:E; [|vm_compute; discriminate..].
    destruct (Hnum c q Hc E) as (Heq & H0 & _). rewrite E in Heq.
    rewrite Heq. exact H0.
  - intros i c q Hc Hq. exists (fila_cargada c).
    split; [rewrite list_lookup_fmap, Hc; reflexivity|].
    unfold fila_cargada, armar_fila. cbn [cantidad fst].
    destruct (Hnum c q (list_elem_of_lookup_2 _ _ _ Hc) Hq) as (Heq & _ & H1).
    rewrite Heq. exact H1.
Qed.

Lemma cantidades_no_negativas_witness :
  exists d,
    objetos (snd (cargar_csv archivo_encabezado_sucio estado_inicial)) !! 0%nat
    = Some d
    /\ Forall (fun f => 0 <= cantidad f) (filas d)
    /\ (cantidad <$> filas d) = [3; 2].
Proof.
  destruct (cantidades_no_negativas
              ["fecha"; " Producto "; "CANTIDAD"; "Precio!"; "Vendedor"]%string
              [ cruda_de (el_dia 2024 1 5) (Some "A"%string) (Numero (Qc_of_Z 3)) (Numero (Qc_of_Z 10));
                cruda_de (el_dia 2024 1 7) (Some "B"%string) (Numero (Q2Qc (5 # 2))) (Texto "n/d") ]
              estado_inicial 0%nat
              (snd (cargar_csv archivo_encabezado_sucio estado_inicial)))
    as (d & Hd & Hpos & _).
  { apply (bool_decide_unpack _). vm_compute. exact I. }
  { vm_compute. reflexivity. }
  { intros c q Hc Hq.
    apply elem_of_cons in Hc as [->|Hc];
      [injection Hq as <-; split; [discriminate|reflexivity]|].
    apply list_elem_of_singleton in Hc as ->. injection Hq as <-.
    split; [discriminate|reflexivity]. }
  exists d. split; [exact Hd|]. split; [exact Hpos|].
  vm_compute in Hd. injection Hd as <-. reflexivity.
Defined.

(** ** Further properties of the aggregator *)

Lemma idxmax_int_lanza s e : idxmax_int s = Lanza e -> s = [] /\ e = ValueError.
Proof. destruct s; [intros [= <-]; auto|discriminate]. Qed.

(** The aggregator either returns or raises [ValueError]; in both cases it
    leaves the copy with its derived column in the store. *)
Lemma calcular_metricas_casos df s d :
  objetos s !! df = Some d ->
  (exists m, calcular_metricas df s = (Retorna m, estado_tras s d))
  \/ (calcular_metricas df s = (Lanza ValueError, estado_tras s d)
      /\ (serie_cantidad d = [] \/ primero_float (serie_ingresos d) = None)).
Proof.
  intros Hd.
  unfold calcular_metricas, copy, asignar_ingreso, mbind, M_bind, ligar,
    leer, nuevo, modificar, elevar, mret, M_ret, retornar.
  paso. rewrite Hd. paso.
  fold (copia_de s).
  repeat (rewrite ?lookup_insert_eq, ?insert_insert_eq; paso).
  fold (con_ingreso d). fold (estado_tras s d).
  fold (serie_cantidad d). fold (serie_ingresos d). fold (serie_mensual d).
  destruct (serie_cantidad d) as [|e l] eqn:Ec.
  { right. split; [reflexivity|left; reflexivity]. }
  cbn [idxmax_int max_int int_de]. paso.
  unfold idxmax_float.
  destruct (primero_float (serie_ingresos d)) as [[e' l']|] eqn:Ei; paso.
  - left. eexists. reflexivity.
  - right. split; [reflexivity|right; reflexivity].
Qed.

Lemma calcular_metricas_sin_objeto df s :
  objetos s !! df = None -> calcular_metricas df s = (Lanza KeyError, s).
Proof.
  intros Hd.
  unfold calcular_metricas, copy, mbind, M_bind, ligar, leer.
  rewrite Hd. reflexivity.
Qed.

Lemma claves_grupo_sin_etiquetas (fs : list Fila) :
  (forall f, f ∈ fs -> producto f = None) ->
  claves_grupo (producto <$> fs) = [].
Proof.
  intros H. apply elem_of_nil_inv. intros p Hp.
  apply elem_of_claves_grupo, producto_en_filas in Hp as (f & Hf & Hp).
  rewrite (H f Hf) in Hp. discriminate.
Qed.

Lemma hay_producto_retorna df s d :
  objetos s !! df = Some d ->
  (exists f p, f ∈ filas d /\ producto f = Some p) ->
  exists m, calcular_metricas df s = (Retorna m, estado_tras s d).
Proof.
  intros Hd (f & p & Hf & Hp).
  destruct (calcular_metricas_casos df s d Hd) as [H|[_ [H|H]]]; [exact H|..].
  - assert (Hc : (p, suma_int (cantidades_del_producto d p)) ∈ serie_cantidad d)
      by (apply elem_of_serie_cantidad; eauto).
    rewrite H in Hc. inversion Hc.
  - assert (Hi : (p, Some (suma_float (ingresos_del_producto d p))) ∈ serie_ingresos d)
      by (apply elem_of_serie_ingresos; eauto).
    destruct (primero_float_definido (serie_ingresos d)) as (e & l & E).
    + apply serie_ingresos_definidos.
    + intros Hnil. rewrite Hnil in Hi. inversion Hi.
    + congruence.
Qed.

Lemma sin_etiquetas_aux df s d :
  objetos s !! df = Some d ->
  ((exists f p, f ∈ filas d /\ producto f = Some p)
   /\ exists m, calcular_metricas df s = (Retorna m, estado_tras s d))
  \/ ((forall f, f ∈ filas d -> producto f = None)
      /\ calcular_metricas df s = (Lanza ValueError, estado_tras s d)).
Proof.
  intros Hd.
  destruct (decide (Forall (fun f => producto f = None) (filas d))) as [Hall|Hex].
  - right. split; [apply Forall_forall, Hall|].
    destruct (calcular_metricas_casos df s d Hd) as [[m Hm]|[H _]]; [|exact H].
    exfalso.
    apply (calcular_metricas_inv _ _ _ _ _ Hd) in Hm as (_ & _ & _ & _ & _ & Hi & _).
    rewrite serie_cantidad_eq, claves_grupo_sin_etiquetas in Hi
      by (apply Forall_forall, Hall).
    discriminate.
  - left. apply not_Forall_Exists in Hex; [|intros f; apply _].
    apply Exists_exists in Hex as (f & Hf & Hp).
    destruct (producto f) as [p|] eqn:E; [|contradiction].
    assert (Hhay : exists f p, f ∈ filas d /\ producto f = Some p) by eauto.
    split; [exact Hhay|]. apply (hay_producto_retorna _ _ _ Hd Hhay).
Qed.

(** X8. [calcular_metricas] returns exactly when some row of the table has
    a product label.  On a table with rows of which none has a label it
    raises [ValueError] (the top lookup on an empty series), after it has
    made the copy. *)
Theorem sin_etiquetas_ValueError df s d :
  objetos s !! df = Some d ->
  ((exists f p, f ∈ filas d /\ producto f = Some p)
   <-> exists m, calcular_metricas df s = (Retorna m, estado_tras s d))
  /\ (filas d <> [] ->
      (forall f, f ∈ filas d -> producto f = None) ->
      calcular_metricas df s = (Lanza ValueError, estado_tras s d)).
Proof.
  intros Hd.
  destruct (sin_etiquetas_aux df s d Hd) as [[Hp Hm]|[Hno Hl]].
  - split; [tauto|]. intros _ Hno. destruct Hp as (f & p & Hf & Hp).
    rewrite (Hno f Hf) in Hp. discriminate.
  - split; [|intros _ _; exact Hl]. split.
    + intros (f & p & Hf & Hp). rewrite (Hno f Hf) in Hp. discriminate.
    + intros [m Hm]. rewrite Hl in Hm. discriminate.
Qed.

Lemma sin_etiquetas_ValueError_witness :
  calcular_metricas 0%nat (estado_con tabla_sin_producto)
  = (Lanza ValueError,
     estado_tras (estado_con tabla_sin_producto) tabla_sin_producto).
Proof.
  destruct (sin_etiquetas_ValueError 0%nat (estado_con tabla_sin_producto)
              tabla_sin_producto) as [_ H]; [reflexivity|].
  apply H; [discriminate|].
  intros f Hf. apply list_elem_of_singleton in Hf as ->. reflexivity.
Defined.

(** *** The rankings *)

Lemma claves_serie_cantidad d :
  (serie_cantidad d).*1 ≡ₚ claves_grupo (producto <$> filas d).
Proof.
  rewrite serie_cantidad_eq, (ordenar_Permutation desc_int), <- list_fmap_compose.
  rewrite (list_fmap_ext _ id); [rewrite list_fmap_id; reflexivity|].
  intros; reflexivity.
Qed.

Lemma claves_serie_ingresos d :
  (serie_ingresos d).*1 ≡ₚ claves_grupo (producto <$> filas d).
Proof.
  rewrite serie_ingresos_eq, (ordenar_Permutation desc_float), <- list_fmap_compose.
  rewrite (list_fmap_ext _ id); [rewrite list_fmap_id; reflexivity|].
  intros; reflexivity.
Qed.

(** X9. The quantity-by-product and the revenue-by-product series have one
    entry for each product label that occurs in the table and no other
    entry: no label appears twice, rows without a label add no entry, and
    the two series list the same products. *)
Theorem un_producto_una_entrada df s d m s' :
  objetos s !! df = Some d ->
  calcular_metricas df s = (Retorna m, s') ->
  NoDup (cant_por_producto m).*1
  /\ NoDup (ingresos_por_producto m).*1
  /\ (forall p, p ∈ (cant_por_producto m).*1
               <-> exists f, f ∈ filas d /\ producto f = Some p)
  /\ (cant_por_producto m).*1 ≡ₚ (ingresos_por_producto m).*1
  /\ length (cant_por_producto m) = length (ingresos_por_producto m).
Proof.
  intros Hd Hm.
  apply (calcular_metricas_inv _ _ _ _ _ Hd) in Hm as (_ & _ & _ & -> & -> & _).
  assert (Hp : (serie_cantidad d).*1 ≡ₚ (serie_ingresos d).*1)
    by (rewrite claves_serie_cantidad, claves_serie_ingresos; reflexivity).
  split; [rewrite claves_serie_cantidad; apply NoDup_claves_grupo|].
  split; [rewrite claves_serie_ingresos; apply NoDup_claves_grupo|].
  split.
  { intros p. rewrite claves_serie_cantidad, elem_of_claves_grupo.
    apply producto_en_filas. }
  split; [exact Hp|].
  apply Permutation_length in Hp. rewrite !length_fmap in Hp. exact Hp.
Qed.

Lemma un_producto_una_entrada_witness :
  exists m s',
    calcular_metricas 0%nat (estado_con tabla_ejemplo) = (Retorna m, s')
    /\ NoDup (cant_por_producto m).*1
    /\ length (cant_por_producto m) = length (ingresos_por_producto m).
Proof.
  pose proof (un_producto_una_entrada 0%nat (estado_con tabla_ejemplo)
                tabla_ejemplo) as H.
  destruct (calcular_metricas 0%nat (estado_con tabla_ejemplo))
    as [[m|e] s'] eqn:E; [|vm_compute in E; discriminate].
  exists m, s'. split; [reflexivity|].
  destruct (H m s') as (H1 & _ & _ & _ & H5); [reflexivity..|]. auto.
Defined.

(** X10. An entry of the quantity-by-product series pairs a product with
    the sum of the quantities of the rows that carry its label, and every
    label of the table has such an entry. *)
Theorem cantidad_por_producto_es_la_suma df s d m s' :
  objetos s !! df = Some d ->
  calcular_metricas df s = (Retorna m, s') ->
  forall p c,
    (p, c) ∈ cant_por_producto m
    <-> (exists f, f ∈ filas d /\ producto f = Some p)
        /\ c = suma_int (cantidad <$> filter (fun f => producto f = Some p) (filas d)).
Proof.
  intros Hd Hm p c.
  apply (calcular_metricas_inv _ _ _ _ _ Hd) in Hm as (_ & _ & _ & -> & _).
  apply elem_of_serie_cantidad.
Qed.

Lemma cantidad_por_producto_es_la_suma_witness :
  exists m s',
    calcular_metricas 0%nat (estado_con tabla_ejemplo) = (Retorna m, s')
    /\ ("A"%string, 5) ∈ cant_por_producto m.
Proof.
  pose proof (cantidad_por_producto_es_la_suma 0%nat (estado_con tabla_ejemplo)
                tabla_ejemplo) as H.
  destruct (calcular_metricas 0%nat (estado_con tabla_ejemplo))
    as [[m|e] s'] eqn:E; [|vm_compute in E; discriminate].
  exists m, s'. split; [reflexivity|].
  apply (H m s' eq_refl eq_refl "A"%string 5). split; [|reflexivity].
  eexists. split; [left|reflexivity].
Defined.

Lemma mayor_int_cabeza e l :
  Forall (fun x : string * Z => snd x <= snd e) l -> mayor_int e l = e.
Proof.
  induction 1 as [|x l Hx _ IH]; [reflexivity|].
  cbn [mayor_int]. destruct (Z.ltb_spec (snd e) (snd x)); [lia|exact IH].
Qed.

Lemma mayor_float_cabeza (e : string * Qc) l :
  Forall (fun x : string * float64 =>
            forall y, snd x = Some y -> (y <= snd e)%Qc) l ->
  mayor_float e l = e.
Proof.
  induction 1 as [|[q [y|]] l Hx _ IH]; [reflexivity|..]; cbn [mayor_float].
  - assert (Hle : Qc_leb y (snd e) = true).
    { unfold Qc_leb. apply Qle_bool_iff. apply (Hx y). reflexivity. }
    rewrite Hle. exact IH.
  - exact IH.
Qed.

(** X12. The top results head the rankings: the first entry of the
    quantity-by-product series is the top-by-quantity product with its
    quantity, and the first entry of the revenue-by-product series is the
    top-by-revenue product with its revenue. *)
Theorem top_encabeza_el_ranking df s d m s' :
  objetos s !! df = Some d ->
  calcular_metricas df s = (Retorna m, s') ->
  head (cant_por_producto m) = Some (producto_mas_vendido m, cantidad_max m)
  /\ head (ingresos_por_producto m)
     = Some (producto_top_ingresos m, ingresos_max m).
Proof.
  intros Hd Hm.
  apply (calcular_metricas_inv _ _ _ _ _ Hd) in Hm
    as (_ & _ & _ & -> & -> & Hi & Hc & Hf & ->).
  split.
  - pose proof (sort_values_desc_int_sorted
                  (groupby_sum_int (producto <$> filas d) (cantidad <$> filas d)))
      as Hs.
    fold (serie_cantidad d) in Hs.
    destruct (serie_cantidad d) as [|e l]; [discriminate|].
    cbn in Hi, Hc. injection Hi as <-. injection Hc as <-.
    apply StronglySorted_inv in Hs as [_ Hs].
    rewrite (mayor_int_cabeza e l Hs), <- surjective_pairing. reflexivity.
  - assert (Hs : StronglySorted mayor_o_igual_float (serie_ingresos d)).
    { rewrite serie_ingresos_eq. apply ordenar_desc_float_sorted.
      rewrite <- (ordenar_Permutation desc_float), <- serie_ingresos_eq.
      apply serie_ingresos_definidos. }
    pose proof (serie_ingresos_definidos d) as Hdef.
    unfold idxmax_float in Hf. unfold max_float.
    destruct (serie_ingresos d) as [|[p v] l]; [discriminate|].
    apply Forall_cons in Hdef as [[x Hx] _]. cbn in Hx. subst v.
    cbn [primero_float] in *. injection Hf as <-.
    apply StronglySorted_inv in Hs as [_ Hs].
    rewrite (mayor_float_cabeza (p, x) l); [reflexivity|].
    eapply Forall_impl; [exact Hs|].
    intros b (x' & y' & Hx' & Hy' & Hle) y Hy. cbn in Hx'.
    injection Hx' as <-. rewrite Hy in Hy'. injection Hy' as <-. exact Hle.
Qed.

Lemma top_encabeza_el_ranking_witness :
  exists m s',
    calcular_metricas 0%nat (estado_con tabla_ejemplo) = (Retorna m, s')
    /\ head (cant_por_producto m) = Some (producto_mas_vendido m, cantidad_max m).
Proof.
  pose proof (top_encabeza_el_ranking 0%nat (estado_con tabla_ejemplo)
                tabla_ejemplo) as H.
  destruct (calcular_metricas 0%nat (estado_con tabla_ejemplo))
    as [[m|e] s'] eqn:E; [|vm_compute in E; discriminate].
  exists m, s'. split; [reflexivity|].
  destruct (H m s') as [H1 _]; [reflexivity..|]. exact H1.
Defined.

(** *** Totals by product *)

Section SumaPorGrupos.
Context {A K M : Type} `{EqDecision K}.
Context (op : M -> M -> M) (e : M).
Hypothesis op_assoc : forall x y z, op x (op y z) = op (op x y) z.
Hypothesis op_comm : forall x y, op x y = op y x.
Hypothesis op_e : forall x, op e x = x.

Lemma total_neutros (ks : list K) : foldr op e ((fun _ => e) <$> ks) = e.
Proof.
  induction ks as [|k ks IH]; [reflexivity|]. cbn. rewrite IH. apply op_e.
Qed.

Lemma total_sin_punto k0 c (h : K -> M) (ks : list K) :
  k0 ∉ ks ->
  foldr op e ((fun k => if decide (k0 = k) then op c (h k) else h k) <$> ks)
  = foldr op e (h <$> ks).
Proof.
  induction ks as [|k ks IH]; [reflexivity|].
  intros Hk. apply not_elem_of_cons in Hk as [Hne Hk].
  cbn. rewrite (IH Hk). destruct (decide (k0 = k)); [contradiction|reflexivity].
Qed.

Lemma total_con_punto k0 c (h : K -> M) (ks : list K) :
  NoDup ks -> k0 ∈ ks ->
  foldr op e ((fun k => if decide (k0 = k) then op c (h k) else h k) <$> ks)
  = op c (foldr op e (h <$> ks)).
Proof.
  induction 1 as [|k ks Hk Hnd IH]; [intros H; inversion H|].
  intros Hin. cbn. destruct (decide (k0 = k)) as [->|Hne].
  - rewrite (total_sin_punto _ _ _ _ Hk). symmetry. apply op_assoc.
  - apply elem_of_cons in Hin as [Heq|Hin]; [contradiction|].
    rewrite (IH Hin), !op_assoc, (op_comm (h k) c). reflexivity.
Qed.

(** The totals of the groups add up to the total of the entries that have
    a key. *)
Lemma total_por_grupos (clave : A -> option K) (peso : A -> M)
    (l : list A) (ks : list K) :
  NoDup ks ->
  (forall a k, a ∈ l -> clave a = Some k -> k ∈ ks) ->
  foldr op e
    ((fun k => foldr op e (peso <$> filter (fun a => clave a = Some k) l)) <$> ks)
  = foldr op e (peso <$> filter (fun a => clave a <> None) l).
Proof.
  intros Hnd. induction l as [|a l IH]; intros Hks.
  - cbn. apply total_neutros.
  - assert (IH' := IH (fun x k Hx => Hks x k (list_elem_of_further _ _ _ Hx))).
    destruct (clave a) as [k0|] eqn:Ea.
    + rewrite (filter_cons_True (fun a => clave a <> None)) by congruence.
      cbn [fmap list_fmap foldr]. rewrite <- IH'.
      rewrite <- (total_con_punto k0 (peso a) _ ks Hnd
                    (Hks a k0 (list_elem_of_here _ _) Ea)).
      f_equal. apply list_fmap_ext. intros _ k _.
      rewrite filter_cons. rewrite Ea.
      destruct (decide (Some k0 = Some k)) as [Heq|Hne];
        destruct (decide (k0 = k)); try congruence; reflexivity.
    + rewrite (filter_cons_False (fun a => clave a <> None)) by (rewrite Ea; tauto).
      rewrite <- IH'. f_equal. apply list_fmap_ext. intros _ k _.
      rewrite filter_cons_False by congruence. reflexivity.
Qed.

Lemma total_Permutation (l1 l2 : list M) :
  l1 ≡ₚ l2 -> foldr op e l1 = foldr op e l2.
Proof.
  induction 1 as [|x l1 l2 _ IH|x y l|l1 l2 l3 _ IH1 _ IH2]; cbn.
  - reflexivity.
  - rewrite IH. reflexivity.
  - rewrite !op_assoc, (op_comm y x). reflexivity.
  - congruence.
Qed.
End SumaPorGrupos.

Lemma suma_int_foldr l : suma_int l = foldr Z.add 0 l.
Proof. induction l as [|z l IH]; [reflexivity|]. cbn. rewrite IH. reflexivity. Qed.

Lemma suma_cantidades_por_producto d :
  suma_int (serie_cantidad d).*2
  = suma_int (cantidad <$> filter (fun f => producto f <> None) (filas d)).
Proof.
  rewrite (suma_int_foldr (serie_cantidad d).*2).
  etrans; [|symmetry; apply suma_int_foldr].
  etrans.
  { apply (total_Permutation Z.add 0 Z.add_assoc Z.add_comm _
             ((fun p => suma_int (cantidades_del_producto d p))
                <$> claves_grupo (producto <$> filas d))).
    rewrite serie_cantidad_eq, (ordenar_Permutation desc_int),
      <- list_fmap_compose. reflexivity. }
  rewrite <- (total_por_grupos Z.add 0 Z.add_assoc Z.add_comm Z.add_0_l
                producto cantidad (filas d) (claves_grupo (producto <$> filas d))).
  - reflexivity.
  - apply NoDup_claves_grupo.
  - intros f p Hf Hp. apply elem_of_claves_grupo, producto_en_filas. eauto.
Qed.

Lemma filter_con_etiqueta (fs : list Fila) :
  (forall f, f ∈ fs -> producto f <> None) ->
  filter (fun f => producto f <> None) fs = fs.
Proof.
  induction fs as [|f fs IH]; intros H; [reflexivity|].
  rewrite filter_cons_True by (apply H; left).
  f_equal. apply IH. intros x Hx. apply H. right. exact Hx.
Qed.

(** X11. The entries of the quantity-by-product series add up to the total
    quantity of the rows that have a product label: each labelled row is
    counted once, under its product, and the rows without a label are left
    out.  When every row has a label, the series adds up to the total
    quantity of the table. *)
Theorem totales_por_producto df s d m s' :
  objetos s !! df = Some d ->
  calcular_metricas df s = (Retorna m, s') ->
  suma_int (cant_por_producto m).*2
  = suma_int (cantidad <$> filter (fun f => producto f <> None) (filas d))
  /\ ((forall f, f ∈ filas d -> producto f <> None) ->
      suma_int (cant_por_producto m).*2 = suma_int (cantidad <$> filas d)).
Proof.
  intros Hd Hm.
  apply (calcular_metricas_inv _ _ _ _ _ Hd) in Hm as (_ & _ & _ & -> & _).
  split; [apply suma_cantidades_por_producto|].
  intros Hall.
  rewrite suma_cantidades_por_producto, (filter_con_etiqueta _ Hall). reflexivity.
Qed.

Lemma totales_por_producto_witness :
  exists m s',
    calcular_metricas 0%nat (estado_con tabla_ejemplo) = (Retorna m, s')
    /\ suma_int (cant_por_producto m).*2 = 6
    /\ suma_int (cantidad <$> filas tabla_ejemplo) = 6.
Proof.
  pose proof (totales_por_producto 0%nat (estado_con tabla_ejemplo)
                tabla_ejemplo) as H.
  destruct (calcular_metricas 0%nat (estado_con tabla_ejemplo))
    as [[m|e] s'] eqn:E; [|vm_compute in E; discriminate].
  exists m, s'. split; [reflexivity|].
  destruct (H m s') as (H1 & _); [reflexivity..|].
  split; [rewrite H1|]; reflexivity.
Defined.

(** *** The months of the series *)

Lemma length_rango_meses (fs : list Fila) f1 f2 :
  f1 ∈ fs -> f2 ∈ fs ->
  (forall f, f ∈ fs ->
     ord_fecha (fecha f1) <= ord_fecha (fecha f) <= ord_fecha (fecha f2)) ->
  Z.of_nat (length (rango_meses ((fun f => ord_fecha (fecha f)) <$> fs)))
  = ord_fecha (fecha f2) - ord_fecha (fecha f1) + 1.
Proof.
  intros H1 H2 Hb.
  destruct ((fun f => ord_fecha (fecha f)) <$> fs) as [|o os] eqn:E.
  { destruct fs; [inversion H1|discriminate]. }
  cbn [rango_meses]. rewrite length_seqZ.
  destruct (minimo_spec o os) as [Hmin Hle].
  destruct (maximo_spec o os) as [Hmax Hge].
  assert (Hin : forall f, f ∈ fs -> ord_fecha (fecha f) ∈ o :: os).
  { intros f Hf. rewrite <- E. apply list_elem_of_fmap. eauto. }
  rewrite <- E in Hmin, Hmax.
  apply list_elem_of_fmap in Hmin as (fa & Ha & Hfa).
  apply list_elem_of_fmap in Hmax as (fb & Hb' & Hfb).
  pose proof (Hle _ (Hin f1 H1)). pose proof (Hge _ (Hin f2 H2)).
  pose proof (Hb fa Hfa). pose proof (Hb fb Hfb). lia.
Qed.

(** X13. The monthly series has one entry for each month from the month of
    the earliest row to the month of the latest row, so its length is the
    number of months of that span; a month of the span in which no row
    falls has the sum 0. *)
Theorem meses_del_rango df s d m s' :
  objetos s !! df = Some d ->
  calcular_metricas df s = (Retorna m, s') ->
  (forall f1 f2, f1 ∈ filas d -> f2 ∈ filas d ->
     (forall f, f ∈ filas d ->
        ord_mes (mes_de (fecha f1)) <= ord_mes (mes_de (fecha f))
        <= ord_mes (mes_de (fecha f2))) ->
     Z.of_nat (length (ventas_mensuales m))
     = ord_mes (mes_de (fecha f2)) - ord_mes (mes_de (fecha f1)) + 1)
  /\ (forall k, k ∈ (ventas_mensuales m).*1 ->
        (forall f, f ∈ filas d -> ord_mes (mes_de (fecha f)) <> ord_mes k) ->
        (k, Some 0%Qc) ∈ ventas_mensuales m).
Proof.
  intros Hd Hm.
  apply (calcular_metricas_inv _ _ _ _ _ Hd) in Hm as (_ & _ & -> & _).
  split.
  - intros f1 f2 H1 H2 Hb.
    rewrite serie_mensual_eq, length_fmap.
    apply (length_rango_meses (filas d) f1 f2 H1 H2 Hb).
  - intros k Hk Hno. apply elem_of_serie_mensual. split; [exact Hk|].
    unfold ingresos_del_mes.
    replace (filter (fun f => ord_fecha (fecha f) = ord_mes k) (filas d))
      with (@nil Fila); [reflexivity|].
    symmetry. apply elem_of_nil_inv. intros f Hf.
    apply list_elem_of_filter in Hf as [Hf1 Hf2]. apply (Hno f Hf2 Hf1).
Qed.

Lemma meses_del_rango_witness :
  exists m s',
    calcular_metricas 0%nat (estado_con tabla_con_hueco) = (Retorna m, s')
    /\ length (ventas_mensuales m) = 3%nat
    /\ ((2024, 2), Some 0%Qc) ∈ ventas_mensuales m.
Proof.
  pose proof (meses_del_rango 0%nat (estado_con tabla_con_hueco)
                tabla_con_hueco) as H.
  destruct (calcular_metricas 0%nat (estado_con tabla_con_hueco))
    as [[m|e] s'] eqn:E; [|vm_compute in E; discriminate].
  exists m, s'. split; [reflexivity|].
  destruct (H m s') as (H1 & H2); [reflexivity..|].
  assert (Hk : (ventas_mensuales m).*1 = [(2024, 1); (2024, 2); (2024, 3)]).
  { vm_compute in E. injection E as <- _. reflexivity. }
  split.
  - apply Nat2Z.inj.
    rewrite (H1 (fila_de (el_dia 2024 1 5) (Some "A"%string) 3 (Some (Qc_of_Z 10)))
                (fila_de (el_dia 2024 3 9) (Some "A"%string) 1 (Some (Qc_of_Z 10)))).
    + reflexivity.
    + left.
    + right. left.
    + intros f Hf. apply elem_of_cons in Hf as [->|Hf];
        [vm_compute; intuition discriminate|].
      apply list_elem_of_singleton in Hf as ->. vm_compute. intuition discriminate.
  - apply H2.
    + rewrite Hk. right. left.
    + intros f Hf. apply elem_of_cons in Hf as [->|Hf];
        [vm_compute; intuition discriminate|].
      apply list_elem_of_singleton in Hf as ->. vm_compute. intuition discriminate.
Defined.

(** *** The top-5 chart *)

(** X14. The bars of the top-5 chart are the first five entries of the
    revenue-by-product series, all of them when there are five or fewer;
    they start with the top-by-revenue product, and no product left out has
    a larger revenue than a product shown. *)
Theorem top5_son_los_mayores df s d m s' :
  objetos s !! df = Some d ->
  calcular_metricas df s = (Retorna m, s') ->
  length (top5_de (ingresos_por_producto m))
  = min 5 (length (ingresos_por_producto m))
  /\ ((length (ingresos_por_producto m) <= 5)%nat ->
      top5_de (ingresos_por_producto m) = ingresos_por_producto m)
  /\ head (top5_de (ingresos_por_producto m))
     = Some (producto_top_ingresos m, ingresos_max m)
  /\ (forall a b,
        a ∈ top5_de (ingresos_por_producto m) ->
        b ∈ drop 5 (ingresos_por_producto m) ->
        exists x y, snd a = Some x /\ snd b = Some y /\ (y <= x)%Qc).
Proof.
  intros Hd Hm.
  assert (Hhead : head (ingresos_por_producto m)
                  = Some (producto_top_ingresos m, ingresos_max m)).
  { pose proof Hm as Hm'.
    apply (calcular_metricas_inv _ _ _ _ _ Hd) in Hm'
      as (_ & _ & _ & Ec & Ei & Hi & Hc & Hf & Emax).
    assert (Hs : StronglySorted mayor_o_igual_float (serie_ingresos d)).
    { rewrite serie_ingresos_eq. apply ordenar_desc_float_sorted.
      rewrite <- (ordenar_Permutation desc_float), <- serie_ingresos_eq.
      apply serie_ingresos_definidos. }
    pose proof (serie_ingresos_definidos d) as Hdef.
    rewrite Ei, Emax. unfold idxmax_float in Hf. unfold max_float.
    destruct (serie_ingresos d) as [|[p v] l]; [discriminate|].
    apply Forall_cons in Hdef as [[x Hx] _]. cbn in Hx. subst v.
    cbn [primero_float] in *. injection Hf as <-.
    apply StronglySorted_inv in Hs as [_ Hs].
    rewrite (mayor_float_cabeza (p, x) l); [reflexivity|].
    eapply Forall_impl; [exact Hs|].
    intros b (x' & y' & Hx' & Hy' & Hle) y Hy. cbn in Hx'.
    injection Hx' as <-. rewrite Hy in Hy'. injection Hy' as <-. exact Hle. }
  apply (calcular_metricas_inv _ _ _ _ _ Hd) in Hm as (_ & _ & _ & _ & Ei & _).
  rewrite Ei in *. clear Ei. unfold top5_de.
  split; [apply length_take|].
  split; [intros Hle; apply take_ge; exact Hle|].
  split.
  { destruct (serie_ingresos d); [discriminate|exact Hhead]. }
  intros a b Ha Hb.
  assert (Hs : StronglySorted mayor_o_igual_float
                 (take 5 (serie_ingresos d) ++ drop 5 (serie_ingresos d))).
  { rewrite take_drop, serie_ingresos_eq. apply ordenar_desc_float_sorted.
    rewrite <- (ordenar_Permutation desc_float), <- serie_ingresos_eq.
    apply serie_ingresos_definidos. }
  apply StronglySorted_app in Hs as (Hs & _ & _).
  apply (Hs a b Ha Hb).
Qed.

Lemma top5_son_los_mayores_witness :
  exists m s',
    calcular_metricas 0%nat (estado_con tabla_seis_productos) = (Retorna m, s')
    /\ length (top5_de (ingresos_por_producto m)) = 5%nat
    /\ (top5_de (ingresos_por_producto m)).*1 = ["B"; "D"; "F"; "C"; "E"]%string.
Proof.
  pose proof (top5_son_los_mayores 0%nat (estado_con tabla_seis_productos)
                tabla_seis_productos) as H.
  destruct (calcular_metricas 0%nat (estado_con tabla_seis_productos))
    as [[m|e] s'] eqn:E; [|vm_compute in E; discriminate].
  exists m, s'. split; [reflexivity|].
  destruct (H m s') as (H1 & _); [reflexivity..|].
  assert (Hk : (ingresos_por_producto m).*1 = ["B"; "D"; "F"; "C"; "E"; "A"]%string).
  { vm_compute in E. injection E as <- _. reflexivity. }
  split.
  - rewrite H1. rewrite <- (length_fmap fst), Hk. reflexivity.
  - unfold top5_de. rewrite fmap_take, Hk. reflexivity.
Defined.

(** ** Effects and the run of the program *)

(** X7. Loading and aggregating write no file, and neither changes an
    object that exists when it is called: the loader only adds the table it
    returns, the aggregator only adds its copy. *)
Theorem carga_y_calculo_no_escriben a df s :
  escritos (snd (cargar_csv a s)) = escritos s
  /\ escritos (snd (calcular_metricas df s)) = escritos s
  /\ forall r0 d0, objetos s !! r0 = Some d0 ->
       objetos (snd (cargar_csv a s)) !! r0 = Some d0
       /\ objetos (snd (calcular_metricas df s)) !! r0 = Some d0.
Proof.
  assert (Hfresco : forall d r0 d0, objetos s !! r0 = Some d0 ->
                      <[copia_de s := d]> (objetos s) !! r0 = Some d0).
  { intros d r0 d0 Hr. rewrite lookup_insert_ne; [exact Hr|].
    intros <-. rewrite copia_de_fresca in Hr. discriminate. }
  assert (Hcarga : (exists d, snd (cargar_csv a s)
                     = {| objetos := <[copia_de s := d]> (objetos s);
                          escritos := escritos s |})
                   \/ snd (cargar_csv a s) = s).
  { destruct a as [|[|enc crudas]]; [right; reflexivity..|].
    destruct (encabezado_aceptado enc) eqn:E.
    - destruct (forallb cantidad_finita crudas) eqn:Hfin.
      + rewrite (cargar_csv_acepta _ _ _ E Hfin). left. eexists. reflexivity.
      + rewrite (cargar_csv_infinita _ _ _ E Hfin). right. reflexivity.
    - rewrite (cargar_csv_no_acepta _ _ _ E). right. reflexivity. }
  assert (Hcalc : (exists d, snd (calcular_metricas df s)
                     = {| objetos := <[copia_de s := d]> (objetos s);
                          escritos := escritos s |})
                  \/ snd (calcular_metricas df s) = s).
  { destruct (objetos s !! df) as [d|] eqn:Hd.
    - rewrite (calcular_metricas_estado _ _ _ Hd). left. eexists. reflexivity.
    - rewrite (calcular_metricas_sin_objeto _ _ Hd). right. reflexivity. }
  split; [destruct Hcarga as [[d ->]| ->]; reflexivity|].
  split; [destruct Hcalc as [[d ->]| ->]; reflexivity|].
  intros r0 d0 Hr. split.
  - destruct Hcarga as [[d ->]| ->]; [apply Hfresco|]; exact Hr.
  - destruct Hcalc as [[d ->]| ->]; [apply Hfresco|]; exact Hr.
Qed.

Lemma main_acepta enc crudas :
  encabezado_aceptado enc = true ->
  forallb cantidad_finita crudas = true ->
  main (Existe (Tabular enc crudas)) estado_inicial
  = match calcular_metricas (copia_de estado_inicial)
            (estado_con (tabla_de (fila_cargada <$> crudas))) with
    | (Retorna m, s1) =>
        (Retorna tt,
         {| objetos := objetos s1;
            escritos := escritos s1 ++ archivos_de_salida |})
    | (Lanza e, s1) => (Lanza e, s1)
    end.
Proof.
  intros H Hfin. unfold main, mbind, M_bind, ligar.
  rewrite (cargar_csv_acepta _ _ _ H Hfin).
  change {| objetos := <[copia_de estado_inicial :=
                          tabla_de (fila_cargada <$> crudas)]> (objetos estado_inicial);
            escritos := escritos estado_inicial |}
    with (estado_con (tabla_de (fila_cargada <$> crudas))).
  destruct (calcular_metricas _ _) as [[m|e] s1]; [|reflexivity].
  unfold graficar_ventas_por_mes, graficar_top5_productos, exportar_informe,
    escribir_archivo, archivos_de_salida. cbn.
  rewrite <- !app_assoc. reflexivity.
Qed.

Lemma producto_cargado (crudas : list FilaCruda) :
  (exists f p, f ∈ fila_cargada <$> crudas /\ producto f = Some p)
  <-> exists c p, c ∈ crudas /\ cr_producto c = Some p.
Proof.
  split.
  - intros (f & p & Hf & Hp). apply list_elem_of_fmap in Hf as (c & -> & Hc).
    exists c, p. auto.
  - intros (c & p & Hc & Hp). exists (fila_cargada c), p.
    split; [apply list_elem_of_fmap; eauto|exact Hp].
Qed.

(** X16. A run writes all three output files or none.  It ends with status
    0 after writing [ventas_por_mes.png], [ventas_top5_productos.png] and
    [informe.txt], in that order, or with status 1 and nothing written.
    Status 0 needs an accepted header, no quantity cell that reads as an
    infinity, and a row with a product label; with column names that stay
    distinct once normalised that is also enough.  A file with a good
    header and no labelled row, or no row at all, or with an infinite
    quantity, ends the run with status 1 and no file. *)
Theorem salida_completa_o_ninguna a :
  ((estado_salida (ejecutar a) = 0
    /\ archivos_creados (ejecutar a) = archivos_de_salida)
   \/ (estado_salida (ejecutar a) = 1 /\ archivos_creados (ejecutar a) = []))
  /\ (estado_salida (ejecutar a) = 0 ->
      exists enc crudas,
        a = Existe (Tabular enc crudas)
        /\ contiene enc "fecha" = true
        /\ (forall req, req ∈ requeridas ->
              contiene (normalizar <$> enc) req = true)
        /\ (forall c b, c ∈ crudas -> cr_cantidad c <> Infinita b)
        /\ exists c p, c ∈ crudas /\ cr_producto c = Some p)
  /\ (forall enc crudas,
        a = Existe (Tabular enc crudas) ->
        NoDup (normalizar <$> enc) ->
        contiene enc "fecha" = true ->
        (forall req, req ∈ requeridas ->
           contiene (normalizar <$> enc) req = true) ->
        (forall c b, c ∈ crudas -> cr_cantidad c <> Infinita b) ->
        (exists c p, c ∈ crudas /\ cr_producto c = Some p) ->
        estado_salida (ejecutar a) = 0)
  /\ (forall enc crudas c b,
        a = Existe (Tabular enc crudas) ->
        c ∈ crudas -> cr_cantidad c = Infinita b ->
        estado_salida (ejecutar a) = 1 /\ archivos_creados (ejecutar a) = []).
Proof.
  assert (Hrech : forall enc crudas, encabezado_aceptado enc = false ->
            ejecutar (Existe (Tabular enc crudas))
            = {| estado_salida := 1; archivos_creados := [] |}).
  { intros enc crudas E. unfold ejecutar, main, mbind, M_bind, ligar.
    rewrite (cargar_csv_no_acepta _ _ _ E). reflexivity. }
  assert (Hinf : forall enc crudas, encabezado_aceptado enc = true ->
            forallb cantidad_finita crudas = false ->
            ejecutar (Existe (Tabular enc crudas))
            = {| estado_salida := 1; archivos_creados := [] |}).
  { intros enc crudas E Hfin. unfold ejecutar, main, mbind, M_bind, ligar.
    rewrite (cargar_csv_infinita _ _ _ E Hfin). reflexivity. }
  assert (Hacep : forall enc crudas, encabezado_aceptado enc = true ->
            forallb cantidad_finita crudas = true ->
            ((exists c p, c ∈ crudas /\ cr_producto c = Some p)
             /\ ejecutar (Existe (Tabular enc crudas))
                = {| estado_salida := 0; archivos_creados := archivos_de_salida |})
            \/ ((forall c, c ∈ crudas -> cr_producto c = None)
                /\ ejecutar (Existe (Tabular enc crudas))
                   = {| estado_salida := 1; archivos_creados := [] |})).
  { intros enc crudas E Hfin. unfold ejecutar. rewrite (main_acepta _ _ E Hfin).
    set (d := tabla_de (fila_cargada <$> crudas)).
    assert (Hd : objetos (estado_con d) !! copia_de estado_inicial = Some d)
      by reflexivity.
    destruct (sin_etiquetas_aux (copia_de estado_inicial) (estado_con d) d Hd)
      as [[Hp [m Hm]]|[Hno Hl]].
    - left. split; [apply producto_cargado, Hp|]. rewrite Hm. reflexivity.
    - right. split; [|rewrite Hl; reflexivity].
      intros c Hc. apply (Hno (fila_cargada c)).
      apply list_elem_of_fmap. eauto. }
  split; [|split; [|split]].
  - destruct a as [|[|enc crudas]]; [right; split; reflexivity..|].
    destruct (encabezado_aceptado enc) eqn:E;
      [|rewrite (Hrech _ _ E); right; split; reflexivity].
    destruct (forallb cantidad_finita crudas) eqn:Hfin;
      [|rewrite (Hinf _ _ E Hfin); right; split; reflexivity].
    destruct (Hacep enc crudas E Hfin) as [[_ ->]|[_ ->]]; [left|right];
      split; reflexivity.
  - intros H0. destruct a as [|[|enc crudas]]; [discriminate..|].
    destruct (encabezado_aceptado enc) eqn:E;
      [|rewrite (Hrech _ _ E) in H0; discriminate].
    destruct (forallb cantidad_finita crudas) eqn:Hfin;
      [|rewrite (Hinf _ _ E Hfin) in H0; discriminate].
    exists enc, crudas. split; [reflexivity|].
    pose proof E as E'. apply encabezado_aceptado_iff in E' as [E1 E2].
    split; [exact E1|]. split; [apply faltantes_nil_iff, E2|].
    split; [apply cantidades_finitas_iff, Hfin|].
    destruct (Hacep enc crudas E Hfin) as [[Hp _]|[_ Hl]]; [exact Hp|].
    rewrite Hl in H0. discriminate.
  - intros enc crudas -> _ Hfecha Hreq Hfin (c & p & Hc & Hp).
    assert (E : encabezado_aceptado enc = true).
    { apply encabezado_aceptado_iff. split; [exact Hfecha|].
      apply faltantes_nil_iff, Hreq. }
    apply cantidades_finitas_iff in Hfin.
    destruct (Hacep enc crudas E Hfin) as [[_ ->]|[Hno _]]; [reflexivity|].
    rewrite (Hno c Hc) in Hp. discriminate.
  - intros enc crudas c b -> Hc Hb.
    destruct (encabezado_aceptado enc) eqn:E;
      [|rewrite (Hrech _ _ E); split; reflexivity].
    rewrite (Hinf _ _ E); [split; reflexivity|].
    apply cantidad_infinita_iff. eauto.
Qed.

Lemma salida_completa_o_ninguna_witness :
  estado_salida (ejecutar archivo_encabezado_sucio) = 0
  /\ estado_salida (ejecutar archivo_sin_filas) = 1
  /\ archivos_creados (ejecutar archivo_sin_filas) = []
  /\ estado_salida (ejecutar archivo_cantidad_infinita) = 1
  /\ archivos_creados (ejecutar archivo_cantidad_infinita) = [].
Proof.
  split; [|split; [|split]].
  - destruct (salida_completa_o_ninguna archivo_encabezado_sucio) as (_ & _ & H & _).
    eapply H.
    + reflexivity.
    + apply (bool_decide_unpack _). vm_compute. exact I.
    + reflexivity.
    + intros req Hreq. apply contiene_true. unfold requeridas in Hreq.
      repeat (apply elem_of_cons in Hreq as [->|Hreq];
              [vm_compute; repeat first [left | right]|]).
      inversion Hreq.
    + intros c b Hc Hb.
      repeat (apply elem_of_cons in Hc as [->|Hc]; [discriminate|]).
      inversion Hc.
    + eexists _, "A"%string. split; [left|reflexivity].
  - destruct (salida_completa_o_ninguna archivo_sin_filas) as ([[H _]|[H _]] & _).
    + vm_compute in H. discriminate.
    + exact H.
  - destruct (salida_completa_o_ninguna archivo_sin_filas) as ([[H _]|[_ H]] & _).
    + vm_compute in H. discriminate.
    + exact H.
  - destruct (salida_completa_o_ninguna archivo_cantidad_infinita)
      as (_ & _ & _ & H).
    eapply H.
    + reflexivity.
    + right. left.
    + reflexivity.
Defined.

(** *** The labels of the monthly chart *)

Lemma digito_compare a b :
  0 <= a <= 9 -> 0 <= b <= 9 ->
  Ascii.compare (digito a) (digito b) = (a ?= b).
Proof.
  intros Ha Hb. unfold Ascii.compare, digito.
  rewrite !N_ascii_embedding by lia.
  rewrite <- N2Z.inj_compare, !N2Z.inj_add, !Z2N.id by lia.
  apply Z.add_compare_mono_l.
Qed.

Lemma etiqueta_mes_compare k1 k2 :
  0 <= fst k1 <= 9999 -> 0 <= snd k1 <= 99 ->
  0 <= fst k2 <= 9999 -> 0 <= snd k2 <= 99 ->
  String.compare (etiqueta_mes k1) (etiqueta_mes k2)
  = (100 * fst k1 + snd k1 ?= 100 * fst k2 + snd k2).
Proof.
  destruct k1 as [a1 m1], k2 as [a2 m2]. cbn [fst snd]. intros Ha1 Hm1 Ha2 Hm2.
  unfold etiqueta_mes. cbn [fst snd String.compare].
  change (Ascii.compare "-" "-") with Eq.
  assert (E1 : a1 = 1000 * (a1 / 1000 mod 10) + 100 * (a1 / 100 mod 10)
                    + 10 * (a1 / 10 mod 10) + a1 mod 10)
    by (Z.div_mod_to_equations; lia).
  assert (E2 : a2 = 1000 * (a2 / 1000 mod 10) + 100 * (a2 / 100 mod 10)
                    + 10 * (a2 / 10 mod 10) + a2 mod 10)
    by (Z.div_mod_to_equations; lia).
  assert (F1 : m1 = 10 * (m1 / 10 mod 10) + m1 mod 10)
    by (Z.div_mod_to_equations; lia).
  assert (F2 : m2 = 10 * (m2 / 10 mod 10) + m2 mod 10)
    by (Z.div_mod_to_equations; lia).
  pose proof (Z.mod_pos_bound (a1 / 1000) 10 ltac:(lia)).
  pose proof (Z.mod_pos_bound (a1 / 100) 10 ltac:(lia)).
  pose proof (Z.mod_pos_bound (a1 / 10) 10 ltac:(lia)).
  pose proof (Z.mod_pos_bound a1 10 ltac:(lia)).
  pose proof (Z.mod_pos_bound (m1 / 10) 10 ltac:(lia)).
  pose proof (Z.mod_pos_bound m1 10 ltac:(lia)).
  pose proof (Z.mod_pos_bound (a2 / 1000) 10 ltac:(lia)).
  pose proof (Z.mod_pos_bound (a2 / 100) 10 ltac:(lia)).
  pose proof (Z.mod_pos_bound (a2 / 10) 10 ltac:(lia)).
  pose proof (Z.mod_pos_bound a2 10 ltac:(lia)).
  pose proof (Z.mod_pos_bound (m2 / 10) 10 ltac:(lia)).
  pose proof (Z.mod_pos_bound m2 10 ltac:(lia)).
  generalize dependent (a1 / 1000 mod 10). generalize dependent (a1 / 100 mod 10).
  generalize dependent (a1 / 10 mod 10). generalize dependent (a1 mod 10).
  generalize dependent (m1 / 10 mod 10). generalize dependent (m1 mod 10).
  generalize dependent (a2 / 1000 mod 10). generalize dependent (a2 / 100 mod 10).
  generalize dependent (a2 / 10 mod 10). generalize dependent (a2 mod 10).
  generalize dependent (m2 / 10 mod 10). generalize dependent (m2 mod 10).
  intros. subst a1 a2 m1 m2.
  rewrite !digito_compare by lia.
  repeat match goal with
         | |- context [?x ?= ?y] =>
             lazymatch x with
             | Z.add _ _ => fail
             | _ => destruct (Z.compare_spec x y)
             end
         end;
    symmetry;
    first [ apply Z.compare_eq_iff; lia
          | apply Z.compare_lt_iff; lia
          | apply Z.compare_gt_iff; lia ].
Qed.

Lemma sorted_con_predicado {A} (R : A -> A -> Prop) (P : A -> Prop) l :
  StronglySorted R l -> Forall P l ->
  StronglySorted (fun a b => P a /\ P b /\ R a b) l.
Proof.
  induction 1 as [|x l Hs IH Hx]; intros HP; [constructor|].
  apply Forall_cons in HP as [Px HP]. constructor; [apply IH, HP|].
  rewrite Forall_forall in *. intros y Hy. auto.
Qed.

Lemma sorted_estricto_NoDup {A} (R : A -> A -> Prop) l :
  (forall x, ~ R x x) -> StronglySorted R l -> NoDup l.
Proof.
  intros Hirr. induction 1 as [|x l Hs IH Hx]; constructor; [|exact IH].
  intros Hin. rewrite Forall_forall in Hx. apply (Hirr x), Hx, Hin.
Qed.

Lemma ltb_irreflexiva (x : string) : ~ String.ltb x x = true.
Proof.
  unfold String.ltb. pose proof (String.compare_antisym x x) as H.
  destruct (String.compare x x); cbn in H; congruence.
Qed.

Lemma claves_imprimibles d :
  (forall f, f ∈ filas d -> mes_imprimible (mes_de (fecha f))) ->
  Forall mes_imprimible (serie_mensual d).*1.
Proof.
  intros H. apply Forall_forall. intros k Hk.
  apply elem_of_claves_serie_mensual in Hk as (Hv & f1 & f2 & H1 & H2 & Hb).
  destruct (H f1 H1) as [Ha1 Hm1]. destruct (H f2 H2) as [Ha2 Hm2].
  unfold mes_imprimible, ord_fecha, ord_mes, mes_de in *. cbn [fst snd] in *.
  split; [lia|exact Hv].
Qed.

(** X15. The monthly chart labels each entry of the monthly series with
    its year and month as ["YYYY-MM"] and leaves the values as they are.
    For dates of the years 1000 to 9999 the labels are in strictly
    ascending text order, the order of the months, so no two bars share a
    label. *)
Theorem etiquetas_en_orden df s d m s' :
  objetos s !! df = Some d ->
  calcular_metricas df s = (Retorna m, s') ->
  (forall f, f ∈ filas d ->
     1000 <= anio (fecha f) <= 9999 /\ 1 <= mes (fecha f) <= 12) ->
  StronglySorted (fun a b : string => String.ltb a b = true)
    (etiquetar_meses (ventas_mensuales m)).*1
  /\ NoDup (etiquetar_meses (ventas_mensuales m)).*1
  /\ (etiquetar_meses (ventas_mensuales m)).*2 = (ventas_mensuales m).*2
  /\ Forall (fun l => String.length l = 7%nat)
       (etiquetar_meses (ventas_mensuales m)).*1.
Proof.
  intros Hd Hm Hf.
  apply (calcular_metricas_inv _ _ _ _ _ Hd) in Hm as (_ & _ & -> & _).
  assert (Hlab : (etiquetar_meses (serie_mensual d)).*1
                 = etiqueta_mes <$> (serie_mensual d).*1).
  { unfold etiquetar_meses. rewrite <- !list_fmap_compose. reflexivity. }
  assert (Hs : StronglySorted (fun a b : string => String.ltb a b = true)
                 (etiquetar_meses (serie_mensual d)).*1).
  { rewrite Hlab.
    apply (StronglySorted_fmap _
             (fun a b => mes_imprimible a /\ mes_imprimible b
                         /\ ord_mes a < ord_mes b)).
    - intros k1 k2 ([Ha1 Hm1] & [Ha2 Hm2] & Hlt).
      unfold String.ltb. rewrite etiqueta_mes_compare by lia.
      unfold ord_mes in Hlt.
      assert (Hc : 100 * fst k1 + snd k1 < 100 * fst k2 + snd k2) by lia.
      apply Z.compare_lt_iff in Hc. rewrite Hc. reflexivity.
    - apply sorted_con_predicado; [|apply claves_imprimibles, Hf].
      rewrite claves_serie_mensual.
      apply (StronglySorted_fmap _ Z.lt); [|apply rango_meses_sorted].
      intros x y Hxy. rewrite !ord_mes_de_ord. exact Hxy. }
  split; [exact Hs|]. split; [|split].
  - apply (sorted_estricto_NoDup _ _ ltb_irreflexiva Hs).
  - unfold etiquetar_meses. rewrite <- !list_fmap_compose. reflexivity.
  - rewrite Hlab. apply Forall_fmap, Forall_forall. intros k _. reflexivity.
Qed.

Lemma etiquetas_en_orden_witness :
  exists m s',
    calcular_metricas 0%nat (estado_con tabla_ejemplo) = (Retorna m, s')
    /\ (etiquetar_meses (ventas_mensuales m)).*1 = ["2024-01"; "2024-02"]%string
    /\ NoDup (etiquetar_meses (ventas_mensuales m)).*1.
Proof.
  pose proof (etiquetas_en_orden 0%nat (estado_con tabla_ejemplo)
                tabla_ejemplo) as H.
  destruct (calcular_metricas 0%nat (estado_con tabla_ejemplo))
    as [[m|e] s'] eqn:E; [|vm_compute in E; discriminate].
  exists m, s'. split; [reflexivity|].
  destruct (H m s') as (_ & H2 & _); [reflexivity..| |].
  { intros f Hf. unfold tabla_ejemplo, tabla_de in Hf. cbn [filas] in Hf.
    repeat (apply elem_of_cons in Hf as [->|Hf];
            [vm_compute; intuition discriminate|]).
    inversion Hf. }
  split; [|exact H2].
  vm_compute in E. injection E as <- _. reflexivity.
Defined.

(** ** The order of the rows *)

Lemma suma_int_Permutation l1 l2 : l1 ≡ₚ l2 -> suma_int l1 = suma_int l2.
Proof.
  intros H. rewrite !suma_int_foldr.
  apply (total_Permutation Z.add 0 Z.add_assoc Z.add_comm), H.
Qed.

Lemma ordenar_leb_sorted (l : list string) :
  StronglySorted String.le (ordenar String.leb l).
Proof.
  apply (ordenar_sorted String.leb (fun _ => True)).
  - intros x y _ _ H. unfold String.le. rewrite H. exact I.
  - intros x y _ _ H. unfold String.le.
    destruct (String.leb_total x y) as [H'|H']; [congruence|].
    rewrite H'. exact I.
  - intros x y z. apply (transitivity (R:=String.le)).
  - apply Forall_forall. intros; exact I.
Qed.

Lemma claves_grupo_Permutation (l1 l2 : list (option string)) :
  l1 ≡ₚ l2 -> claves_grupo l1 = claves_grupo l2.
Proof.
  intros H. unfold claves_grupo.
  apply (StronglySorted_unique String.le); [apply ordenar_leb_sorted..|].
  rewrite !(ordenar_Permutation String.leb).
  apply NoDup_Permutation; [apply NoDup_remove_dups..|].
  intros x. rewrite !elem_of_remove_dups, H. reflexivity.
Qed.

Lemma serie_cantidad_Permutation d d' :
  filas d ≡ₚ filas d' -> serie_cantidad d = serie_cantidad d'.
Proof.
  intros H. rewrite !serie_cantidad_eq.
  rewrite (claves_grupo_Permutation (producto <$> filas d) (producto <$> filas d'))
    by (rewrite H; reflexivity).
  f_equal. apply list_fmap_ext. intros _ p _. f_equal.
  apply suma_int_Permutation. unfold cantidades_del_producto.
  rewrite H. reflexivity.
Qed.

Lemma rango_meses_Permutation os1 os2 :
  os1 ≡ₚ os2 -> rango_meses os1 = rango_meses os2.
Proof.
  intros H.
  apply (StronglySorted_unique_strong Z.lt); [|apply rango_meses_sorted..|].
  - intros x y _ _ Hxy Hyx. lia.
  - apply NoDup_Permutation; [apply NoDup_rango_meses..|].
    intros k. rewrite !elem_of_rango_meses.
    setoid_rewrite H. reflexivity.
Qed.

(** X17. The order of the rows does not matter to the integer results:
    two tables with the same rows in different orders give the same
    quantity-by-product series, the same top-by-quantity product and
    quantity, and monthly series over the same months. *)
Theorem orden_de_filas_indiferente df s d m s1 df' s' d' m' s1' :
  objetos s !! df = Some d ->
  objetos s' !! df' = Some d' ->
  filas d ≡ₚ filas d' ->
  calcular_metricas df s = (Retorna m, s1) ->
  calcular_metricas df' s' = (Retorna m', s1') ->
  cant_por_producto m = cant_por_producto m'
  /\ producto_mas_vendido m = producto_mas_vendido m'
  /\ cantidad_max m = cantidad_max m'
  /\ (ventas_mensuales m).*1 = (ventas_mensuales m').*1.
Proof.
  intros Hd Hd' Hp Hm Hm'.
  apply (calcular_metricas_inv _ _ _ _ _ Hd) in Hm
    as (_ & _ & -> & -> & _ & Hi & Hc & _).
  apply (calcular_metricas_inv _ _ _ _ _ Hd') in Hm'
    as (_ & _ & -> & -> & _ & Hi' & Hc' & _).
  pose proof (serie_cantidad_Permutation d d' Hp) as E.
  rewrite E in Hi, Hc.
  split; [exact E|]. split; [congruence|]. split; [congruence|].
  rewrite !claves_serie_mensual. f_equal.
  apply rango_meses_Permutation. unfold meses_de. rewrite Hp. reflexivity.
Qed.

Lemma orden_de_filas_indiferente_witness :
  exists m m' s1 s1',
    calcular_metricas 0%nat (estado_con tabla_ejemplo) = (Retorna m, s1)
    /\ calcular_metricas 0%nat
         (estado_con (tabla_de (reverse (filas tabla_ejemplo)))) = (Retorna m', s1')
    /\ cant_por_producto m = cant_por_producto m'.
Proof.
  pose proof (orden_de_filas_indiferente 0%nat (estado_con tabla_ejemplo)
                tabla_ejemplo) as H.
  destruct (calcular_metricas 0%nat (estado_con tabla_ejemplo))
    as [[m|e] s1] eqn:E; [|vm_compute in E; discriminate].
  specialize (H m s1 0%nat
                (estado_con (tabla_de (reverse (filas tabla_ejemplo))))
                (tabla_de (reverse (filas tabla_ejemplo)))).
  destruct (calcular_metricas 0%nat
              (estado_con (tabla_de (reverse (filas tabla_ejemplo)))))
    as [[m'|e] s1'] eqn:E'; [|vm_compute in E'; discriminate].
  exists m, m', s1, s1'. split; [reflexivity|]. split; [reflexivity|].
  assert (Hp : filas tabla_ejemplo
               ≡ₚ filas (tabla_de (reverse (filas tabla_ejemplo)))).
  { cbn [tabla_de filas]. symmetry. apply reverse_Permutation. }
  destruct (H m' s1' eq_refl eq_refl Hp eq_refl eq_refl) as [H1 _]. exact H1.
Defined.
